(** * grafeas-pgsql: the filter compiler, the pagination cursor and the
      record store, embedded and verified

    The development follows the Go sources of package [storage]:
    - [go/v1beta1/storage/filter.go] (type [FilterSQL]);
    - the file of the store (type [PgSQLStore], [encryptInt64],
      [decryptInt64]).

    Go strings are byte strings and are modelled by [string]; [int64] and
    [int] values are modelled by [Z]; a Go result pair [(v, err)] is a sum;
    a run-time panic is an explicit outcome. *)

From Stdlib Require Import ZArith List String Ascii Bool Lia.

Set Warnings "-register-all".
Import ListNotations.

Local Open Scope string_scope.
Local Open Scope Z_scope.

(* ================================================================== *)
(** * Part of the Go standard library that the sources call *)
(* ================================================================== *)

(** ** Package [strings] *)
Module strings.

(** [strings.Split(s, sep)] for a one-byte separator, the only way the
    sources call it ([.] and [']).  The result always has one more
    element than [s] has separators; in particular it is never empty. *)
Fixpoint Split (s : string) (sep : ascii) : list string :=
  match s with
  | EmptyString => [EmptyString]
  | String c r =>
      if Ascii.eqb c sep then EmptyString :: Split r sep
      else match Split r sep with
           | [] => [String c EmptyString]
           | h :: t => String c h :: t
           end
  end.

(** [strings.Join(elems, sep)]. *)
Fixpoint Join (elems : list string) (sep : string) : string :=
  match elems with
  | [] => ""
  | [x] => x
  | x :: rest => x ++ sep ++ Join rest sep
  end.

(** Does byte [c] occur in [s]? *)
Fixpoint ContainsByte (s : string) (c : ascii) : bool :=
  match s with
  | EmptyString => false
  | String a r => Ascii.eqb a c || ContainsByte r c
  end.

End strings.

(** ** Package [strconv] *)
Module strconv.

Definition maxUint64 : Z := 2 ^ 64 - 1.

(** Conversion of an unbounded integer to the [int64] it wraps to. *)
Definition to_int64 (z : Z) : Z := (z + 2 ^ 63) mod 2 ^ 64 - 2 ^ 63.

Definition digit_char (d : Z) : ascii := ascii_of_nat (48 + Z.to_nat d).

(** The digit loop of [formatBits] in base 10: the least significant
    digit is produced first and put in front of what is already there.
    Twenty rounds are enough for a 64-bit value. *)
Fixpoint formatBits (fuel : nat) (u : Z) (acc : string) : string :=
  match fuel with
  | O => acc
  | S fuel' =>
      if u <? 10 then String (digit_char u) acc
      else formatBits fuel' (u / 10) (String (digit_char (u mod 10)) acc)
  end.

(** [strconv.FormatUint(u, 10)]. *)
Definition FormatUint (u : Z) : string := formatBits 20 u "".

(** [strconv.FormatInt(v, 10)]: a minus sign and the digits of [-v] for
    a negative [v]. *)
Definition FormatInt (v : Z) : string :=
  if v <? 0 then String "-" (FormatUint (- v)) else FormatUint v.

Inductive NumError := ErrSyntax | ErrRange.

Definition digit_val (c : ascii) : option Z :=
  let n := Z.of_nat (nat_of_ascii c) in
  if (48 <=? n) && (n <=? 57) then Some (n - 48) else None.

(** The loop of [ParseUint(s, 10, 64)]: [n] is the value read so far. *)
Fixpoint parseUintLoop (s : string) (n : Z) : Z + NumError :=
  match s with
  | EmptyString => inl n
  | String c r =>
      match digit_val c with
      | None => inr ErrSyntax
      | Some d =>
          if maxUint64 / 10 + 1 <=? n then inr ErrRange
          else
            let n10 := n * 10 in
            let n1 := (n10 + d) mod 2 ^ 64 in
            if (n1 <? n10) || (maxUint64 <? n1) then inr ErrRange
            else parseUintLoop r n1
      end
  end.

Definition ParseUint (s : string) : Z + NumError :=
  match s with
  | EmptyString => inr ErrSyntax
  | _ => parseUintLoop s 0
  end.

(** [strconv.ParseInt(s, 10, 64)]. *)
Definition ParseInt (s : string) : Z + NumError :=
  match s with
  | EmptyString => inr ErrSyntax
  | String c r =>
      let neg := Ascii.eqb c "-" in
      let s' := if Ascii.eqb c "+" || neg then r else s in
      match ParseUint s' with
      | inr e => inr e
      | inl un =>
          let cutoff := 2 ^ 63 in
          if negb neg && (cutoff <=? un) then inr ErrRange
          else if neg && (cutoff <? un) then inr ErrRange
          else
            let n := to_int64 un in
            inl (if neg then to_int64 (- n) else n)
      end
  end.

End strconv.

(* ================================================================== *)
(** * The filter compiler ([filter.go]) *)
(* ================================================================== *)

(** ** The expression tree of package [cel] *)

(** The kinds of [expr.Constant] that [getConstantValue] distinguishes;
    [OtherConstant] stands for the remaining kinds (null, bool, bytes) and
    for a constant whose kind is not set.  A [float64] is carried as its
    IEEE 754 bit pattern ([math.Float64bits]). *)
Inductive Constant :=
| Int64Value (v : Z)
| Uint64Value (v : Z)
| DoubleValue (bits : Z)
| StringValue (v : string)
| OtherConstant.

(** The kinds of [expr.Expr] that [makeSQL] distinguishes; [OtherExpr]
    stands for the remaining kinds (list, struct, comprehension) and for a
    node whose kind is not set. *)
Inductive Expr :=
| CallExpr (Function : string) (Args : list Expr)
| SelectExpr (Operand : Expr) (Field : string)
| IdentExpr (Name : string)
| ConstExpr (c : Constant)
| OtherExpr.

(** The function names of package [operators] that [sqlFromCall] switches
    on.  Their values live in the grafeas library; the compiler only
    compares against them. *)
Record Operators := {
  Equals : string;
  Greater : string;
  GreaterEquals : string;
  Less : string;
  LessEquals : string;
  NotEquals : string;
  LogicalAnd : string;
  LogicalOr : string;
  Index : string;
  Has : string
}.

(** The case constants of a Go [switch], in the order of the cases.  The Go
    compiler refuses a [switch] with two equal constants. *)
Definition case_constants (ops : Operators) : list string :=
  [Equals ops; Greater ops; GreaterEquals ops; Less ops; LessEquals ops;
   NotEquals ops; LogicalAnd ops; LogicalOr ops; Index ops; Has ops].

(** What [parser.Parse] returns: the parsed expression or an error. *)
Inductive ParseResult :=
| Parsed (e : Expr)
| ParseError (msg : string).

(** ** Outcomes and the state of a [FilterSQL] *)

Inductive Panic :=
| IndexOutOfRange (index : nat) (length : nat).

Inductive outcome (A : Type) :=
| Returns (a : A)
| Panics (p : Panic).
Arguments Returns {A} a.
Arguments Panics {A} p.

Record FilterSQL := { selects : Z }.

(** A method of [*FilterSQL]: it reads and updates the receiver and either
    returns or panics. *)
Definition FS (A : Type) : Type := FilterSQL -> outcome (A * FilterSQL).

Definition fs_ret {A} (a : A) : FS A := fun fs => Returns (a, fs).

Definition fs_bind {A B} (m : FS A) (k : A -> FS B) : FS B :=
  fun fs =>
    match m fs with
    | Returns (a, fs') => k a fs'
    | Panics p => Panics p
    end.

Definition fs_panic {A} (p : Panic) : FS A := fun _ => Panics p.

Definition fs_get : FS Z := fun fs => Returns (selects fs, fs).
Definition fs_put (n : Z) : FS unit := fun _ => Returns (tt, {| selects := n |}).

Declare Scope fs_scope.
Delimit Scope fs_scope with fs.
Notation "x <- m ;; k" := (fs_bind m (fun x => k))
  (at level 61, m at next level, right associativity) : fs_scope.
Notation "m ;;; k" := (fs_bind m (fun _ => k))
  (at level 61, right associativity) : fs_scope.

(** [l[i]] on a slice: a panic when [i] is not below the length. *)
Definition at_index (l : list string) (i : nat) : FS string :=
  match nth_error l i with
  | Some x => fs_ret x
  | None => fs_panic (IndexOutOfRange i (List.length l))
  end.

(** The loop [for _, arg := range args { argNames = append(argNames, f(arg)) }]. *)
Definition range_append {A} (f : A -> FS string) : list A -> FS (list string) :=
  fix go (args : list A) : FS (list string) :=
    match args with
    | [] => fs_ret []
    | arg :: rest =>
        (s <- f arg ;; names <- go rest ;; fs_ret (s :: names))%fs
    end.

(** [formatLikeString]: the text between the first two quotes of
    [argName], wrapped in [%]. *)
Definition formatLikeString (argName : string) : FS string :=
  (inner <- at_index (strings.Split argName "'") 1 ;;
   fs_ret ("'%" ++ inner ++ "%'"))%fs.

(** The loop of [makeSQL] over the dotted path: every segment but the last
    with [->], the last with [->>], starting from the column [data]. *)
Definition json_path (spl : list string) : string :=
  fold_left
    (fun retVal i =>
       if negb (Nat.eqb i (List.length spl - 1))
       then retVal ++ "->'" ++ nth i spl "" ++ "'"
       else retVal ++ "->>'" ++ nth i spl "" ++ "'")
    (seq 0 (List.length spl)) "data".

Section Compiler.

Variable ops : Operators.

(** [fmt.Sprintf("%f", v)] for a [float64]. *)
Variable Sprintf_f : Z -> string.

(** [parser.Parse] of the grafeas filtering library. *)
Variable Parse : string -> ParseResult.

Definition getConstantValue (constExpr : Constant) : string :=
  match constExpr with
  | Int64Value v => strconv.FormatInt v
  | Uint64Value v => strconv.FormatUint v
  | DoubleValue v => Sprintf_f v
  | StringValue v => "'" ++ v ++ "'"
  | OtherConstant => "NO CONST"
  end.

(** The [switch] of [sqlFromCall]. *)
Definition sqlOp_of (funcName : string) : string :=
  if String.eqb funcName (Equals ops) then "="
  else if String.eqb funcName (Greater ops) then ">"
  else if String.eqb funcName (GreaterEquals ops) then ">="
  else if String.eqb funcName (Less ops) then "<"
  else if String.eqb funcName (LessEquals ops) then "<="
  else if String.eqb funcName (NotEquals ops) then "!="
  else if String.eqb funcName (LogicalAnd ops) then "AND"
  else if String.eqb funcName (LogicalOr ops) then "OR"
  else if String.eqb funcName (Index ops) then "["
  else if String.eqb funcName (Has ops) then "like"
  else "".

(** [sqlFromCall], with the recursive call to [makeSQL] as a parameter.
    Among the operands of a [Sprintf], the compiled code evaluates a
    function call before a plain element of a slice: in the [like]
    branch [formatLikeString(argNames[1])] runs before [argNames[0]] is
    read. *)
Definition sqlFromCall (makeSQL : Expr -> FS string)
           (funcName : string) (args : list Expr) : FS string :=
  let sqlOp := sqlOp_of funcName in
  (argNames <- range_append makeSQL args ;;
   if String.eqb sqlOp "[" then
     a0 <- at_index argNames 0 ;;
     a1 <- at_index argNames 1 ;;
     fs_ret (a0 ++ "[" ++ a1 ++ "]")
   else if String.eqb sqlOp "like" then
     a1 <- at_index argNames 1 ;;
     pat <- formatLikeString a1 ;;
     a0 <- at_index argNames 0 ;;
     fs_ret ("(" ++ a0 ++ " " ++ sqlOp ++ " " ++ pat ++ ")")
   else if negb (String.eqb sqlOp "") then
     a0 <- at_index argNames 0 ;;
     a1 <- at_index argNames 1 ;;
     fs_ret ("(" ++ a0 ++ " " ++ sqlOp ++ " " ++ a1 ++ ")")
   else
     fs_ret (funcName ++ "(" ++ strings.Join argNames ", " ++ ")"))%fs.

(** [sqlFromSelect], with the recursive call as a parameter. *)
Definition sqlFromSelect (makeSQL : Expr -> FS string)
           (operand : Expr) (field : string) : FS string :=
  (o <- makeSQL operand ;; fs_ret (o ++ "." ++ field))%fs.

Fixpoint makeSQL (node : Expr) : FS string :=
  match node with
  | CallExpr funcName args => sqlFromCall makeSQL funcName args
  | SelectExpr operand field =>
      (n <- fs_get ;;
       fs_put (n + 1) ;;;
       retStr <- sqlFromSelect makeSQL operand field ;;
       n' <- fs_get ;;
       fs_put (n' - 1) ;;;
       n'' <- fs_get ;;
       if n'' =? 0 then fs_ret (json_path (strings.Split retStr "."))
       else fs_ret retStr)%fs
  | IdentExpr name =>
      (n <- fs_get ;;
       if 0 <? n then fs_ret name
       else fs_ret ("data->>'" ++ name ++ "'"))%fs
  | ConstExpr c => fs_ret (getConstantValue c)
  | OtherExpr => fs_ret "NO SQL"
  end.

(** [ParseFilter]; the parse error is written to the log, which is not
    part of the model, and the empty string is returned. *)
Definition ParseFilter (filter : string) : FS string :=
  match Parse filter with
  | ParseError _ => fs_ret ""
  | Parsed e => makeSQL e
  end.

End Compiler.

(* ================================================================== *)
(** * Keys of the pagination cursor (package [fernet]) *)
(* ================================================================== *)

(** Package [encoding/hex] and [encoding/base64], as far as
    [fernet.DecodeKey] uses them. *)
Module encoding.

Definition byte_of (n : N) : ascii := ascii_of_N n.

Definition fromHexChar (c : ascii) : option N :=
  let n := N_of_ascii c in
  if (48 <=? n)%N && (n <=? 57)%N then Some (n - 48)%N
  else if (97 <=? n)%N && (n <=? 102)%N then Some (n - 97 + 10)%N
  else if (65 <=? n)%N && (n <=? 70)%N then Some (n - 65 + 10)%N
  else None.

(** [hex.DecodeString]: two hexadecimal digits per byte. *)
Fixpoint hex_DecodeString (s : string) : option string :=
  match s with
  | EmptyString => Some EmptyString
  | String _ EmptyString => None
  | String a (String b r) =>
      match fromHexChar a, fromHexChar b, hex_DecodeString r with
      | Some x, Some y, Some bytes => Some (String (byte_of (x * 16 + y)) bytes)
      | _, _, _ => None
      end
  end.

(** The two alphabets: [c62] and [c63] are the characters of the values
    62 and 63 ([+] and [/], or [-] and [_]). *)
Definition decodeMap (c62 c63 : ascii) (c : ascii) : option N :=
  let n := N_of_ascii c in
  if (65 <=? n)%N && (n <=? 90)%N then Some (n - 65)%N
  else if (97 <=? n)%N && (n <=? 122)%N then Some (n - 97 + 26)%N
  else if (48 <=? n)%N && (n <=? 57)%N then Some (n - 48 + 52)%N
  else if Ascii.eqb c c62 then Some 62%N
  else if Ascii.eqb c c63 then Some 63%N
  else None.

(** Carriage returns and line feeds are skipped wherever they stand. *)
Fixpoint strip_newlines (s : string) : string :=
  match s with
  | EmptyString => EmptyString
  | String c r =>
      if Ascii.eqb c "010" || Ascii.eqb c "013" then strip_newlines r
      else String c (strip_newlines r)
  end.

(** One quantum of four characters after the other; padding with [=] is
    required and only the last quantum may carry it.  The decoder is
    not strict: the unused low bits of a padded quantum are dropped. *)
Fixpoint decode_quanta (val : ascii -> option N) (fuel : nat) (s : string)
  : option string :=
  match fuel with
  | O => None
  | S fuel' =>
      match s with
      | EmptyString => Some EmptyString
      | String c1 (String c2 (String c3 (String c4 r))) =>
          match val c1, val c2 with
          | Some v1, Some v2 =>
              let b1 := byte_of ((v1 * 4 + v2 / 16) mod 256) in
              if Ascii.eqb c3 "=" then
                if Ascii.eqb c4 "=" then
                  match r with
                  | EmptyString => Some (String b1 EmptyString)
                  | _ => None
                  end
                else None
              else
                match val c3 with
                | None => None
                | Some v3 =>
                    let b2 := byte_of ((v2 * 16 + v3 / 4) mod 256) in
                    if Ascii.eqb c4 "=" then
                      match r with
                      | EmptyString => Some (String b1 (String b2 EmptyString))
                      | _ => None
                      end
                    else
                      match val c4 with
                      | None => None
                      | Some v4 =>
                          let b3 := byte_of ((v3 * 64 + v4) mod 256) in
                          match decode_quanta val fuel' r with
                          | Some bytes => Some (String b1 (String b2 (String b3 bytes)))
                          | None => None
                          end
                      end
                end
          | _, _ => None
          end
      | _ => None
      end
  end.

Definition base64_DecodeString (c62 c63 : ascii) (s : string) : option string :=
  let t := strip_newlines s in
  decode_quanta (decodeMap c62 c63) (S (String.length t)) t.

Definition StdEncoding_DecodeString := base64_DecodeString "+" "/".
Definition URLEncoding_DecodeString := base64_DecodeString "-" "_".

End encoding.

Module fernet.

(** A [fernet.Key]: 32 bytes (256 bits). *)
Definition Key := string.

(** [fernet.DecodeKey]: the key may be written in hexadecimal, standard
    base64 or URL-safe base64 and must decode to exactly 32 bytes. *)
Definition DecodeKey (s : string) : option Key :=
  if String.eqb s "" then None
  else
    let b :=
      if Nat.eqb (String.length s) 64 then encoding.hex_DecodeString s
      else match encoding.StdEncoding_DecodeString s with
           | Some b => Some b
           | None => encoding.URLEncoding_DecodeString s
           end in
    match b with
    | None => None
    | Some b => if Nat.eqb (String.length b) 32 then Some b else None
    end.

End fernet.

(* ================================================================== *)
(** * The record store ([pgsqlstore.go]) *)
(* ================================================================== *)

(** ** Errors *)

(** The [codes] of gRPC that the store uses. *)
Inductive Code := AlreadyExists | NotFound | InvalidArgument | Internal.

Inductive error :=
| pq_Error (Code : string)
    (** a [*pq.Error] of the driver, with its SQLSTATE code *)
| other_error (msg : string)
    (** any other error value of a library: a cancelled context, a lost
        connection, [sql.ErrNoRows], an error of [fernet] or [uuid] *)
| errors_New (msg : string)
| fmt_Errorf (format : string) (cause : error)
| status_Error (c : Code) (msg : string)
| status_Errorf (c : Code) (format : string) (args : list string).

(** ** Records *)

Definition Timestamp := Z.

Record Project := { prj_Name : string }.

(** The fields of a note and of an occurrence that the store reads or
    writes; [_rest] holds the others. *)
Record Note := {
  n_Name : string;
  n_CreateTime : option Timestamp;
  n_UpdateTime : option Timestamp;
  n_rest : string
}.

Record Occurrence := {
  o_Name : string;
  o_NoteName : string;
  o_CreateTime : option Timestamp;
  o_UpdateTime : option Timestamp;
  o_rest : string
}.

(** ** The database and the other libraries *)

(** An argument of a statement. *)
Inductive sqlarg :=
| arg_string (s : string)
| arg_int (n : Z).

(** A [sql.Result], with what [RowsAffected] returns. *)
Record Result := { RowsAffected : Z + error }.

(** The rows of a [*sql.Rows] with columns [(id, text)], in the order in
    which [Next] yields them; for each row, what [Scan] gives. *)
Definition Rows := list ((Z * string) + error).

(** A statement with one [%s] verb, for [fmt.Sprintf]. *)
Record Template := { before_verb : string; after_verb : string }.

Definition Sprintf_s (t : Template) (arg : string) : string :=
  before_verb t ++ arg ++ after_verb t.

(** The statements of [queries.go], a file of the package that the store
    refers to by name. *)
Record Queries := {
  createTables : string;
  insertProject : string;
  deleteProject : string;
  listProjects : Template;
  projectsMaxID : string;
  insertOccurrence : string;
  deleteOccurrence : string;
  listOccurrences : Template;
  occurrenceMaxID : Template;
  insertNote : string;
  deleteNote : string;
  listNotes : Template;
  notesMaxID : Template
}.

(** [time.Hour], in nanoseconds. *)
Definition time_Hour : Z := 3600 * 10 ^ 9.

(** Everything outside the package that the store talks to.  A [World] is
    the state of that outside: the database, the clock, the source of
    randomness. *)
Record Env := {
  World : Type;
  Connector : Type;
  (** [database/sql], on the database that a connector opens *)
  sql_Ping : Connector -> World -> option error * World;
  sql_ExecContext :
    Connector -> string -> list sqlarg -> World -> (Result + error) * World;
  sql_QueryContext :
    Connector -> string -> list sqlarg -> World -> (Rows + error) * World;
  sql_QueryRowContext_Scan :
    Connector -> string -> list sqlarg -> World -> (Z + error) * World;
  sql_Close : Connector -> World -> World;
  (** [time.Now], in nanoseconds since the epoch *)
  time_Now : World -> Z;
  (** [fernet] *)
  fernet_Generate : World -> (fernet.Key + error) * World;
  fernet_Encode : fernet.Key -> string;
  fernet_EncryptAndSign :
    string -> fernet.Key -> World -> (string + error) * World;
  fernet_VerifyAndDecrypt :
    string -> Z -> list fernet.Key -> World -> option string;
  (** [ptypes], [uuid], [name], [proto] *)
  ptypes_TimestampNow : World -> Timestamp * World;
  uuid_NewRandom : World -> (string + error) * World;
  name_FormatProject : string -> string;
  name_FormatNote : string -> string -> string;
  name_ParseNote : string -> (string * string) + error;
  MarshalTextString_Note : Note -> string;
  UnmarshalText_Note : string -> Note + error;
  MarshalTextString_Occurrence : Occurrence -> string;
  UnmarshalText_Occurrence : string -> Occurrence + error;
  (** the filter compiler's imports *)
  operators : Operators;
  fmt_Sprintf_f : Z -> string;
  parser_Parse : string -> ParseResult
}.

(** ** The cursor *)

Section Cursor.

Variable E : Env.

(** [encryptInt64]. *)
Definition encryptInt64 (v : Z) (key : string) (w : World E)
  : (string + error) * World E :=
  match fernet.DecodeKey key with
  | None => (inr (other_error "fernet: key decoding"), w)
  | Some k => fernet_EncryptAndSign E (strconv.FormatInt v) k w
  end.

(** [decryptInt64]. *)
Definition decryptInt64 (encrypted : string) (key : string)
           (defaultValue : Z) (w : World E) : Z :=
  match fernet.DecodeKey key with
  | None => defaultValue
  | Some k =>
      match fernet_VerifyAndDecrypt E encrypted time_Hour [k] w with
      | None => defaultValue
      | Some bytes =>
          match strconv.ParseInt bytes with
          | inr _ => defaultValue
          | inl decryptedValue => decryptedValue
          end
      end
  end.

End Cursor.

(** ** The store *)

(** A [*sql.DB] is the database behind its connector. *)
Record PgSQLStore (E : Env) := {
  DB : Connector E;
  paginationKey : string
}.
Arguments DB {E} p.
Arguments paginationKey {E} p.

(** A call of a method of the store: it changes the world and returns,
    or it panics. *)
Definition call (E : Env) (A : Type) : Type := World E -> outcome (A * World E).

Section Store.

Variable E : Env.
Variable Q : Queries.

Local Abbreviation W := (World E).

(** [NewStoreWithCustomConnector]. *)
Definition NewStoreWithCustomConnector (connector : Connector E)
           (paginationKey : string) (w : W) : (PgSQLStore E + error) * W :=
  let checked : (string + error) * W :=
    if String.eqb paginationKey "" then
      match fernet_Generate E w with
      | (inr err, w1) =>
          (inr (fmt_Errorf "failed to generate pagination key, %s" err), w1)
      | (inl key, w1) => (inl (fernet_Encode E key), w1)
      end
    else
      match fernet.DecodeKey paginationKey with
      | None =>
          (inr (errors_New "invalid pagination key; must be 256-bit URL-safe base64"), w)
      | Some _ => (inl paginationKey, w)
      end in
  match checked with
  | (inr err, w1) => (inr err, w1)
  | (inl paginationKey, w1) =>
      let db := connector in
      match sql_Ping E db w1 with
      | (Some err, w2) =>
          (inr (fmt_Errorf "failed to ping the database server, err: %v" err), w2)
      | (None, w2) =>
          match sql_ExecContext E db (createTables Q) [] w2 with
          | (inr err, w3) =>
              (inr (fmt_Errorf "failed to create tables, err: %v" err),
               sql_Close E db w3)
          | (inl _, w3) =>
              (inl {| DB := db; paginationKey := paginationKey |}, w3)
          end
      end
  end.

Variable pg : PgSQLStore E.

(** The type assertion on [err] in the three [Create] methods: it holds
    for an error of the driver's own type [pq.Error] only, and gives
    access to its code. *)
Definition as_pq_Error (r : Result + error) : option string :=
  match r with
  | inr (pq_Error code) => Some code
  | _ => None
  end.

(** [CreateProject]. *)
Definition CreateProject (pID : string) (p : Project) (w : W)
  : (Project + error) * W :=
  let (r, w1) :=
    sql_ExecContext E (DB pg) (insertProject Q)
                    [arg_string (name_FormatProject E pID)] w in
  match as_pq_Error r with
  | Some code =>
      if String.eqb code "23505" then
        (inr (status_Errorf AlreadyExists
                            "Project with name %q already exists" [pID]), w1)
      else
        (inr (status_Error Internal "Failed to insert Project in database"), w1)
  | None => (inl p, w1)
  end.

(** [DeleteProject]. *)
Definition DeleteProject (pID : string) (w : W) : option error * W :=
  let pName := name_FormatProject E pID in
  match sql_ExecContext E (DB pg) (deleteProject Q) [arg_string pName] w with
  | (inr _, w1) =>
      (Some (status_Error Internal "Failed to delete Project from database"), w1)
  | (inl result, w1) =>
      match RowsAffected result with
      | inr _ =>
          (Some (status_Error Internal "Failed to delete Project from database"), w1)
      | inl count =>
          if count =? 0 then
            (Some (status_Errorf NotFound
                                 "Project with name %q does not Exist" [pName]), w1)
          else (None, w1)
      end
  end.

(** [CreateOccurrence]. *)
Definition CreateOccurrence (pID uID : string) (o : Occurrence) (w : W)
  : (Occurrence + error) * W :=
  let (now, w1) := ptypes_TimestampNow E w in
  let o := {| o_Name := o_Name o; o_NoteName := o_NoteName o;
              o_CreateTime := Some now; o_UpdateTime := o_UpdateTime o;
              o_rest := o_rest o |} in
  match uuid_NewRandom E w1 with
  | (inr _, w2) => (inr (status_Error Internal "Failed to generate UUID"), w2)
  | (inl id, w2) =>
      let o := {| o_Name := "projects/" ++ pID ++ "/occurrences/" ++ id;
                  o_NoteName := o_NoteName o;
                  o_CreateTime := o_CreateTime o;
                  o_UpdateTime := o_UpdateTime o;
                  o_rest := o_rest o |} in
      match name_ParseNote E (o_NoteName o) with
      | inr _ => (inr (status_Error InvalidArgument "Invalid note name"), w2)
      | inl (nPID, nID) =>
          let (r, w3) :=
            sql_ExecContext E (DB pg) (insertOccurrence Q)
              [arg_string pID; arg_string id; arg_string nPID; arg_string nID;
               arg_string (MarshalTextString_Occurrence E o)] w2 in
          match as_pq_Error r with
          | Some code =>
              if String.eqb code "23505" then
                (inr (status_Errorf AlreadyExists
                        "Occurrence with name %q already exists" [o_Name o]), w3)
              else
                (inr (status_Error Internal
                        "Failed to insert Occurrence in database"), w3)
          | None => (inl o, w3)
          end
      end
  end.

(** The loop of the two batch methods: [create] on every item in turn;
    an item whose creation fails is skipped, the others are appended to
    [created].  Nothing is ever appended to [errs]. *)
Fixpoint batch_loop {A B : Type} (create : A -> W -> (B + error) * W)
         (items : list A) (created : list B) (errs : list error) (w : W)
  : (list B * list error) * W :=
  match items with
  | [] => ((created, errs), w)
  | x :: rest =>
      match create x w with
      | (inr _, w1) => batch_loop create rest created errs w1
      | (inl y, w1) => batch_loop create rest (created ++ [y]) errs w1
      end
  end.

(** [BatchCreateOccurrences]. *)
Definition BatchCreateOccurrences (pID uID : string) (occs : list Occurrence)
           (w : W) : (list Occurrence * list error) * W :=
  batch_loop (CreateOccurrence pID uID) occs [] [] w.

(** [DeleteOccurrence]. *)
Definition DeleteOccurrence (pID oID : string) (w : W) : option error * W :=
  match sql_ExecContext E (DB pg) (deleteOccurrence Q)
                        [arg_string pID; arg_string oID] w with
  | (inr _, w1) =>
      (Some (status_Error Internal "Failed to delete Occurrence from database"), w1)
  | (inl result, w1) =>
      match RowsAffected result with
      | inr _ =>
          (Some (status_Error Internal
                   "Failed to delete Occurrence from database"), w1)
      | inl count =>
          if count =? 0 then
            (Some (status_Errorf NotFound
                     "Occurrence with name %q/%q does not Exist" [pID; oID]), w1)
          else (None, w1)
      end
  end.

(** [CreateNote]. *)
Definition CreateNote (pID nID uID : string) (n : Note) (w : W)
  : (Note + error) * W :=
  let nName := name_FormatNote E pID nID in
  let n := {| n_Name := nName; n_CreateTime := n_CreateTime n;
              n_UpdateTime := n_UpdateTime n; n_rest := n_rest n |} in
  let (now, w1) := ptypes_TimestampNow E w in
  let n := {| n_Name := n_Name n; n_CreateTime := Some now;
              n_UpdateTime := n_UpdateTime n; n_rest := n_rest n |} in
  let (r, w2) :=
    sql_ExecContext E (DB pg) (insertNote Q)
      [arg_string pID; arg_string nID;
       arg_string (MarshalTextString_Note E n)] w1 in
  match as_pq_Error r with
  | Some code =>
      if String.eqb code "23505" then
        (inr (status_Errorf AlreadyExists
                "Note with name %q already exists" [n_Name n]), w2)
      else
        (inr (status_Error Internal "Failed to insert Note in database"), w2)
  | None => (inl n, w2)
  end.

(** [BatchCreateNotes].  [notes] lists the entries of the Go map in the
    order in which the [range] statement of the creating loop visits
    them; Go leaves that order open. *)
Definition BatchCreateNotes (pID uID : string) (notes : list (string * Note))
           (w : W) : (list Note * list error) * W :=
  batch_loop (fun '(nID, n) => CreateNote pID nID uID n) notes [] [] w.

(** [DeleteNote]. *)
Definition DeleteNote (pID nID : string) (w : W) : option error * W :=
  match sql_ExecContext E (DB pg) (deleteNote Q)
                        [arg_string pID; arg_string nID] w with
  | (inr _, w1) =>
      (Some (status_Error Internal "Failed to delete Note from database"), w1)
  | (inl result, w1) =>
      match RowsAffected result with
      | inr _ =>
          (Some (status_Error Internal "Failed to delete Note from database"), w1)
      | inl count =>
          if count =? 0 then
            (Some (status_Errorf NotFound
                     "Note with name %q/%q does not Exist" [pID; nID]), w1)
          else (None, w1)
      end
  end.

(** [max]. *)
Definition max (query : string) (args : list sqlarg) (w : W) : (Z + error) * W :=
  sql_QueryRowContext_Scan E (DB pg) query args w.

(** The filter part of the three list methods: a [FilterSQL] of its own
    for each call. *)
Definition filterQuery_of (filter : string) : outcome string :=
  if String.eqb filter "" then Returns ""
  else
    match ParseFilter (operators E) (fmt_Sprintf_f E) (parser_Parse E)
                      filter {| selects := 0 |} with
    | Panics p => Panics p
    | Returns (sql, _) => Returns (" AND " ++ sql)
    end.

(** The loop [for rows.Next()] of the list methods: [decode] turns the
    text column into an item ([proto.UnmarshalText], or the name of a
    project as it is), [scan_msg] and [decode_msg] are the messages of
    the two errors. *)
Fixpoint scan_rows {A : Type} (decode : string -> A + error)
         (scan_msg decode_msg : string)
         (rows : Rows) (items : list A) (lastID : Z)
  : (list A * Z) + error :=
  match rows with
  | [] => inl (items, lastID)
  | inr _ :: _ => inr (status_Error Internal scan_msg)
  | inl (id, data) :: rest =>
      match decode data with
      | inr _ => inr (status_Error Internal decode_msg)
      | inl item =>
          scan_rows decode scan_msg decode_msg rest (items ++ [item]) id
      end
  end.

(** The end of the three list methods, after the rows are read. *)
Definition next_page {A : Type} (items : list A) (lastID : Z)
           (maxQuery : string) (maxArgs : list sqlarg)
           (max_msg page_msg : string) (w : W)
  : ((list A * string) + error) * W :=
  if Nat.eqb (List.length items) 0 then (inl (items, ""), w)
  else
    match max maxQuery maxArgs w with
    | (inr _, w1) => (inr (status_Error Internal max_msg), w1)
    | (inl maxID, w1) =>
        if maxID <=? lastID then (inl (items, ""), w1)
        else
          match encryptInt64 E lastID (paginationKey pg) w1 with
          | (inr _, w2) => (inr (status_Error Internal page_msg), w2)
          | (inl encryptedPage, w2) => (inl (items, encryptedPage), w2)
          end
    end.

(** [ListProjects]. *)
Definition ListProjects (filter : string) (pageSize : Z) (pageToken : string)
  : call E ((list Project * string) + error) :=
  fun w =>
    match filterQuery_of filter with
    | Panics p => Panics p
    | Returns filterQuery =>
        let query := Sprintf_s (listProjects Q) filterQuery in
        let id := decryptInt64 E pageToken (paginationKey pg) 0 w in
        match sql_QueryContext E (DB pg) query [arg_int id; arg_int pageSize] w with
        | (inr _, w1) =>
            Returns (inr (status_Error Internal
                            "Failed to list Projects from database"), w1)
        | (inl rows, w1) =>
            match scan_rows (fun name => inl {| prj_Name := name |})
                            "Failed to scan Project row" "" rows [] 0 with
            | inr err => Returns (inr err, w1)
            | inl (projects, lastID) =>
                let maxQuery :=
                  if negb (String.eqb filterQuery "")
                  then projectsMaxID Q ++ " WHERE " ++ filterQuery
                  else projectsMaxID Q in
                Returns (next_page projects lastID maxQuery []
                           "Failed to query max project id from database"
                           "Failed to paginate projects" w1)
            end
        end
    end.

(** [ListOccurrences]. *)
Definition ListOccurrences (pID filter pageToken : string) (pageSize : Z)
  : call E ((list Occurrence * string) + error) :=
  fun w =>
    match filterQuery_of filter with
    | Panics p => Panics p
    | Returns filterQuery =>
        let query := Sprintf_s (listOccurrences Q) filterQuery in
        let id := decryptInt64 E pageToken (paginationKey pg) 0 w in
        match sql_QueryContext E (DB pg) query
                [arg_string pID; arg_int id; arg_int pageSize] w with
        | (inr _, w1) =>
            Returns (inr (status_Error Internal
                            "Failed to list Occurrences from database"), w1)
        | (inl rows, w1) =>
            match scan_rows (UnmarshalText_Occurrence E)
                            "Failed to scan Occurrences row"
                            "Failed to unmarshal Occurrence from database"
                            rows [] 0 with
            | inr err => Returns (inr err, w1)
            | inl (os, lastID) =>
                let maxQuery := Sprintf_s (occurrenceMaxID Q) filterQuery in
                Returns (next_page os lastID maxQuery [arg_string pID]
                           "Failed to query max occurrence id from database"
                           "Failed to paginate occurrences" w1)
            end
        end
    end.

(** [ListNotes]. *)
Definition ListNotes (pID filter pageToken : string) (pageSize : Z)
  : call E ((list Note * string) + error) :=
  fun w =>
    match filterQuery_of filter with
    | Panics p => Panics p
    | Returns filterQuery =>
        let query := Sprintf_s (listNotes Q) filterQuery in
        let id := decryptInt64 E pageToken (paginationKey pg) 0 w in
        match sql_QueryContext E (DB pg) query
                [arg_string pID; arg_int id; arg_int pageSize] w with
        | (inr _, w1) =>
            Returns (inr (status_Error Internal
                            "Failed to list Notes from database"), w1)
        | (inl rows, w1) =>
            match scan_rows (UnmarshalText_Note E)
                            "Failed to scan Notes row"
                            "Failed to unmarshal Note from database"
                            rows [] 0 with
            | inr err => Returns (inr err, w1)
            | inl (ns, lastID) =>
                let maxQuery := Sprintf_s (notesMaxID Q) filterQuery in
                Returns (next_page ns lastID maxQuery [arg_string pID]
                           "Failed to query max note id from database"
                           "Failed to paginate notes" w1)
            end
        end
    end.

End Store.

(* ================================================================== *)
(** * What the theorems say about the libraries *)
(* ================================================================== *)

(** The timestamp that [fernet] writes into a token: the seconds of the
    clock, here again in nanoseconds. *)
Definition token_time (E : Env) (w : World E) : Z :=
  time_Now E w / 10 ^ 9 * 10 ^ 9.

(** [maxClockSkew] of [fernet]: a token may come from a clock that is up
    to a minute ahead. *)
Definition maxClockSkew : Z := 60 * 10 ^ 9.

(** A token sealed in world [w] is inside the freshness window [ttl] for
    a reader in world [w2]. *)
Definition within_window (E : Env) (ttl : Z) (w w2 : World E) : Prop :=
  token_time E w <= time_Now E w2 + maxClockSkew /\
  time_Now E w2 <= token_time E w + ttl.

(** What [fernet] promises about its tokens, taken as an ideal
    authenticated encryption: a token opens under the key that sealed it,
    inside the window, and under no other key. *)
Record FernetContract (E : Env) : Prop := {
  token_not_empty :
    forall msg k w tok w1,
      fernet_EncryptAndSign E msg k w = (inl tok, w1) -> tok <> "";
  verify_in_window :
    forall msg k w tok w1 ttl w2,
      fernet_EncryptAndSign E msg k w = (inl tok, w1) ->
      within_window E ttl w w2 ->
      fernet_VerifyAndDecrypt E tok ttl [k] w2 = Some msg;
  verify_expired :
    forall msg k w tok w1 ttl ks w2,
      fernet_EncryptAndSign E msg k w = (inl tok, w1) ->
      0 < ttl ->
      token_time E w + ttl < time_Now E w2 ->
      fernet_VerifyAndDecrypt E tok ttl ks w2 = None;
  verify_other_key :
    forall msg k w tok w1 ttl k' w2,
      fernet_EncryptAndSign E msg k w = (inl tok, w1) ->
      k' <> k ->
      fernet_VerifyAndDecrypt E tok ttl [k'] w2 = None
}.

(** An [int64]. *)
Definition is_int64 (v : Z) : Prop := - 2 ^ 63 <= v < 2 ^ 63.

(** The outcomes of [create] on the items of a batch, one after the
    other. *)
Fixpoint outcomes_of {W A B : Type} (create : A -> W -> (B + error) * W)
         (items : list A) (w : W) : list (B + error) :=
  match items with
  | [] => []
  | x :: rest =>
      let (r, w1) := create x w in r :: outcomes_of create rest w1
  end.

(** The items that were created. *)
Fixpoint successes {B : Type} (outs : list (B + error)) : list B :=
  match outs with
  | [] => []
  | inl y :: rest => y :: successes rest
  | inr _ :: rest => successes rest
  end.

Definition is_AlreadyExists (e : error) : Prop :=
  match e with
  | status_Errorf AlreadyExists _ _ => True
  | _ => False
  end.

(** Exactly one item of the batch is refused as a duplicate and every
    other one is created. *)
Definition one_duplicate {B : Type} (outs : list (B + error)) : Prop :=
  exists before e after,
    outs = (map inl before ++ inr e :: map inl after)%list /\ is_AlreadyExists e.

(** What the end of a list method returns, given the items of the page,
    the id of its last row, and the statement for the greatest id. *)
Definition next_token_rule (E : Env) (pg : PgSQLStore E) {A : Type}
           (items : list A) (lastID : Z)
           (maxQuery : string) (maxArgs : list sqlarg) (w1 : World E)
           (res : outcome (((list A * string) + error) * World E)) : Prop :=
  (items = [] -> res = Returns (inl (items, ""), w1)) /\
  (items <> [] ->
   forall maxID w2,
     max E pg maxQuery maxArgs w1 = (inl maxID, w2) ->
     (maxID <= lastID -> res = Returns (inl (items, ""), w2)) /\
     (lastID < maxID ->
      forall tok w3,
        encryptInt64 E lastID (paginationKey pg) w2 = (inl tok, w3) ->
        res = Returns (inl (items, tok), w3) /\
        tok <> "" /\
        forall w4 d,
          within_window E time_Hour w2 w4 ->
          decryptInt64 E tok (paginationKey pg) d w4 = lastID)).

(** The dotted path [x0.x1. ... .xn] as the parser builds it. *)
Definition select_chain (x0 : string) (fields : list string) : Expr :=
  fold_left SelectExpr fields (IdentExpr x0).

(** The text of the path in the predicate: [data], then [->'x'] for every
    segment but the last, then [->>'x'] for the last. *)
Fixpoint arrows (segments : list string) : string :=
  match segments with
  | [] => ""
  | [x] => "->>'" ++ x ++ "'"
  | x :: rest => "->'" ++ x ++ "'" ++ arrows rest
  end.

(** The operators that [sqlFromCall] renders as [(lhs op rhs)]. *)
Definition binary_operators (ops : Operators) : list (string * string) :=
  [(Equals ops, "="); (Greater ops, ">"); (GreaterEquals ops, ">=");
   (Less ops, "<"); (LessEquals ops, "<="); (NotEquals ops, "!=");
   (LogicalAnd ops, "AND"); (LogicalOr ops, "OR")].

(** The filter of the package's test and the tree that the parser makes
    of it. *)
Definition double_quote : string := String (ascii_of_nat 34) "".

Definition uri_filter : string :=
  "resource.uri=" ++ double_quote ++ "a.rpm" ++ double_quote ++
  " OR resource.uri=" ++ double_quote ++ "https://a.com/b/c/a.rpm" ++ double_quote.

Definition uri_filter_tree (ops : Operators) : Expr :=
  CallExpr (LogicalOr ops)
    [CallExpr (Equals ops)
       [SelectExpr (IdentExpr "resource") "uri"; ConstExpr (StringValue "a.rpm")];
     CallExpr (Equals ops)
       [SelectExpr (IdentExpr "resource") "uri";
        ConstExpr (StringValue "https://a.com/b/c/a.rpm")]].

Definition uri_predicate : string :=
  "((data->'resource'->>'uri' = 'a.rpm') OR (data->'resource'->>'uri' = 'https://a.com/b/c/a.rpm'))".


(** The page that [scan_rows] made of the rows: an item for every row,
    and [lastID] is the id of the last row. *)
Definition page_of {A : Type} (rows : Rows) (items : list A) (lastID : Z) : Prop :=
  List.length items = List.length rows /\
  (rows <> [] ->
   exists before data, rows = (before ++ [inl (lastID, data)])%list).

(* ================================================================== *)
(** * A scripted world, as the package's tests use one *)
(* ================================================================== *)

(** The package's test of [ListProjects] drives the store against
    [go-sqlmock]: the database answers each call with the next response of a script.  The
    same world serves here to run the store on concrete inputs.  Its
    tokens are sealed in the open (key, seconds, message), which is all
    that [FernetContract] asks for. *)
Module mock.

Inductive Response :=
| on_exec (r : Result + error)
| on_query (r : Rows + error)
| on_query_row (r : Z + error)
| on_ping (r : option error).

Record State := {
  script : list Response;
  clock : Z;
  random : list string
}.

Definition unexpected : error := other_error "call was not expected".

Definition next (w : State) : State :=
  {| script := tl (script w); clock := clock w; random := random w |}.

Definition Ping (_ : unit) (w : State) : option error * State :=
  match script w with
  | on_ping r :: _ => (r, next w)
  | _ => (Some unexpected, w)
  end.

Definition ExecContext (_ : unit) (query : string) (args : list sqlarg)
           (w : State) : (Result + error) * State :=
  match script w with
  | on_exec r :: _ => (r, next w)
  | _ => (inr unexpected, w)
  end.

Definition QueryContext (_ : unit) (query : string) (args : list sqlarg)
           (w : State) : (Rows + error) * State :=
  match script w with
  | on_query r :: _ => (r, next w)
  | _ => (inr unexpected, w)
  end.

Definition QueryRowContext_Scan (_ : unit) (query : string) (args : list sqlarg)
           (w : State) : (Z + error) * State :=
  match script w with
  | on_query_row r :: _ => (r, next w)
  | _ => (inr unexpected, w)
  end.

Definition NewRandom (w : State) : (string + error) * State :=
  match random w with
  | id :: rest =>
      (inl id, {| script := script w; clock := clock w; random := rest |})
  | [] => (inr (other_error "no randomness"), w)
  end.

Fixpoint ones (n : nat) : string :=
  match n with
  | O => ""
  | S n' => String "1" (ones n')
  end.

Fixpoint count_ones (s : string) : nat * string :=
  match s with
  | EmptyString => (O, EmptyString)
  | String c r =>
      if Ascii.eqb c "1" then let (n, t) := count_ones r in (S n, t)
      else (O, s)
  end.

Fixpoint split_at (n : nat) (s : string) : option (string * string) :=
  match n with
  | O => Some (EmptyString, s)
  | S n' =>
      match s with
      | EmptyString => None
      | String c r =>
          match split_at n' r with
          | Some (a, b) => Some (String c a, b)
          | None => None
          end
      end
  end.

(** A token: the key, the seconds of the clock and the message. *)
Definition seal (k : fernet.Key) (seconds : Z) (msg : string) : string :=
  String "T"
    (ones (String.length k) ++
     String ":" (k ++
     String (if seconds <? 0 then "-" else "+")
       (ones (Z.abs_nat seconds) ++ String ":" msg))).

Definition unseal (tok : string) : option (fernet.Key * Z * string) :=
  match tok with
  | EmptyString => None
  | String t r =>
      if negb (Ascii.eqb t "T") then None
      else
        let (n, r1) := count_ones r in
        match r1 with
        | EmptyString => None
        | String c r2 =>
            if negb (Ascii.eqb c ":") then None
            else
              match split_at n r2 with
              | Some (k, String sg r3) =>
                  let (m, r4) := count_ones r3 in
                  match r4 with
                  | EmptyString => None
                  | String c' msg =>
                      if negb (Ascii.eqb c' ":") then None
                      else if Ascii.eqb sg "-" then Some (k, - Z.of_nat m, msg)
                      else if Ascii.eqb sg "+" then Some (k, Z.of_nat m, msg)
                      else None
                  end
              | _ => None
              end
        end
  end.

Definition EncryptAndSign (msg : string) (k : fernet.Key) (w : State)
  : (string + error) * State :=
  (inl (seal k (clock w / 10 ^ 9) msg), w).

Definition VerifyAndDecrypt (tok : string) (ttl : Z) (keys : list fernet.Key)
           (w : State) : option string :=
  match unseal tok with
  | None => None
  | Some (k, seconds, msg) =>
      let ts := seconds * 10 ^ 9 in
      if (0 <? ttl) && ((ts + ttl <? clock w) || (clock w + maxClockSkew <? ts))
      then None
      else if existsb (String.eqb k) keys then Some msg else None
  end.

Definition ops : Operators := {|
  Equals := "_==_"; Greater := "_>_"; GreaterEquals := "_>=_";
  Less := "_<_"; LessEquals := "_<=_"; NotEquals := "_!=_";
  LogicalAnd := "_&&_"; LogicalOr := "_||_"; Index := "_[_]"; Has := "_:_"
|}.

(** A parser that knows the filter of the package's filter test and
    refuses every other text. *)
Definition Parse (filter : string) : ParseResult :=
  if String.eqb filter uri_filter then Parsed (uri_filter_tree ops)
  else ParseError "syntax error".

Definition ParseNote (s : string) : (string * string) + error :=
  match strings.Split s "/" with
  | [a; p; b; n] =>
      if String.eqb a "projects" && String.eqb b "notes" &&
         negb (String.eqb p "") && negb (String.eqb n "")
      then inl (p, n)
      else inr (other_error "invalid note name")
  | _ => inr (other_error "invalid note name")
  end.

Definition env : Env := {|
  World := State;
  Connector := unit;
  sql_Ping := Ping;
  sql_ExecContext := ExecContext;
  sql_QueryContext := QueryContext;
  sql_QueryRowContext_Scan := QueryRowContext_Scan;
  sql_Close := fun _ w => w;
  time_Now := clock;
  fernet_Generate := fun w => (inr (other_error "no randomness"), w);
  fernet_Encode := fun k => k;
  fernet_EncryptAndSign := EncryptAndSign;
  fernet_VerifyAndDecrypt := VerifyAndDecrypt;
  ptypes_TimestampNow := fun w => (clock w, w);
  uuid_NewRandom := NewRandom;
  name_FormatProject := fun pID => "projects/" ++ pID;
  name_FormatNote := fun pID nID => "projects/" ++ pID ++ "/notes/" ++ nID;
  name_ParseNote := ParseNote;
  MarshalTextString_Note := n_rest;
  UnmarshalText_Note :=
    fun s => inl {| n_Name := ""; n_CreateTime := None;
                    n_UpdateTime := None; n_rest := s |};
  MarshalTextString_Occurrence := o_rest;
  UnmarshalText_Occurrence :=
    fun s => inl {| o_Name := ""; o_NoteName := ""; o_CreateTime := None;
                    o_UpdateTime := None; o_rest := s |};
  operators := ops;
  fmt_Sprintf_f := fun _ => "0.000000";
  parser_Parse := Parse
|}.

(** The statements, as the test of [ListProjects] expects their
    beginnings. *)
Definition queries : Queries := {|
  createTables := "CREATE TABLE IF NOT EXISTS projects (id SERIAL PRIMARY KEY, name TEXT NOT NULL UNIQUE)";
  insertProject := "INSERT INTO projects(name) VALUES ($1)";
  deleteProject := "DELETE FROM projects WHERE name = $1";
  listProjects :=
    {| before_verb := "SELECT id, name FROM projects WHERE id > $1 ";
       after_verb := " ORDER BY id LIMIT $2" |};
  projectsMaxID := "SELECT MAX(id) FROM projects";
  insertOccurrence :=
    "INSERT INTO occurrences(project_id, occurrence_id, note_project_id, note_id, data) VALUES ($1, $2, $3, $4, $5)";
  deleteOccurrence :=
    "DELETE FROM occurrences WHERE project_id = $1 AND occurrence_id = $2";
  listOccurrences :=
    {| before_verb := "SELECT id, data FROM occurrences WHERE project_id = $1 AND id > $2 ";
       after_verb := " ORDER BY id LIMIT $3" |};
  occurrenceMaxID :=
    {| before_verb := "SELECT MAX(id) FROM occurrences WHERE project_id = $1 ";
       after_verb := "" |};
  insertNote := "INSERT INTO notes(project_id, note_id, data) VALUES ($1, $2, $3)";
  deleteNote := "DELETE FROM notes WHERE project_id = $1 AND note_id = $2";
  listNotes :=
    {| before_verb := "SELECT id, data FROM notes WHERE project_id = $1 AND id > $2 ";
       after_verb := " ORDER BY id LIMIT $3" |};
  notesMaxID :=
    {| before_verb := "SELECT MAX(id) FROM notes WHERE project_id = $1 ";
       after_verb := "" |}
|}.

(** The pagination key of [pgsqlstore_test.go]. *)
Definition test_key : string := "nQi0NzMjerFtlMnbylnWzMrIlNCsuyzeq8LnBEkgxrk=".

(** Its 32 bytes. *)
Definition test_key_bytes : fernet.Key :=
  Eval vm_compute in
    match fernet.DecodeKey test_key with
    | Some k => k
    | None => ""
    end.

(** The world at clock [t], with a script for the database and with the
    identifiers that the source of randomness will give. *)
Definition world (t : Z) (responses : list Response) (ids : list string) : State :=
  {| script := responses; clock := t; random := ids |}.

Definition store : PgSQLStore env :=
  Build_PgSQLStore env tt test_key.

End mock.

(* ================================================================== *)
(** * Tactics *)
(* ================================================================== *)

(** The constants of the [switch] are pairwise different. *)
Ltac by_distinct_cases H :=
  exfalso; unfold case_constants in H;
  repeat (apply NoDup_cons_iff in H; destruct H as [? H]);
  simpl in *; intuition congruence.

Ltac switch_on H :=
  unfold sqlOp_of;
  repeat (match goal with
          | |- context [String.eqb ?a ?b] =>
              destruct (String.eqb_spec a b) as [? | ?];
              [ first [ reflexivity | by_distinct_cases H ] | try congruence ]
          end).

(** Runs the steps of a method of [FilterSQL] that do not depend on the
    tree. *)
Ltac run_fs :=
  cbv beta iota delta
      [sqlFromSelect fs_bind fs_get fs_put fs_ret fs_panic at_index
       formatLikeString nth_error selects].

(** Settles the comparisons of a goal, one after the other. *)
Ltac compare_all :=
  repeat match goal with
         | |- context [Z.ltb ?a ?b] => destruct (Z.ltb_spec a b)
         | |- context [Z.leb ?a ?b] => destruct (Z.leb_spec a b)
         end;
  cbn [andb orb]; try reflexivity; try lia.


(* ================================================================== *)
(** * The rest of the store *)
(* ================================================================== *)

(** ** Configuration and connector *)

(** [Config]. *)
Record Config := {
  Host : string;
  Port : Z;
  DBName : string;
  User : string;
  Password : string;
  SSLMode : string;
  SSLRootCert : string;
  PaginationKey : string
}.

(** [dsnConnector]; its driver is always [pq.Driver]. *)
Record dsnConnector := { dsn : string }.

(** [assembleDSN]. *)
Definition assembleDSN (c : Config) : string :=
  let dsn :=
    "host=" ++ Host c ++ " dbname=" ++ DBName c ++ " user=" ++ User c ++
    " password=" ++ Password c ++ " sslmode=" ++ SSLMode c in
  if negb (String.eqb (SSLRootCert c) "") then
    dsn ++ " sslrootcert=" ++ SSLRootCert c
  else dsn.

(** [newDSNConnector]. *)
Definition newDSNConnector (conf : Config) : dsnConnector :=
  {| dsn := assembleDSN conf |}.

(** ** Single rows *)

(** What [QueryRowContext(...).Scan(&v)] gives: the value of the row, the
    error [sql.ErrNoRows], or another error. *)
Inductive row_scan (A : Type) :=
| row_scanned (a : A)
| row_ErrNoRows
| row_error (e : error).
Arguments row_scanned {A} a.
Arguments row_ErrNoRows {A}.
Arguments row_error {A} e.

(** What the rest of the store asks of the outside, beside [Env]. *)
Record Lookup (E : Env) := {
  (** a [dsnConnector] as a [driver.Connector] *)
  driver_Connector : dsnConnector -> Connector E;
  (** [QueryRowContext] with [Scan] into a [bool] and into a [string] *)
  sql_QueryRowContext_Scan_bool :
    Connector E -> string -> list sqlarg -> World E -> row_scan bool * World E;
  sql_QueryRowContext_Scan_string :
    Connector E -> string -> list sqlarg -> World E -> row_scan string * World E;
  name_FormatOccurrence : string -> string -> string
}.
Arguments driver_Connector {E} l.
Arguments sql_QueryRowContext_Scan_bool {E} l.
Arguments sql_QueryRowContext_Scan_string {E} l.
Arguments name_FormatOccurrence {E} l.

(** The other statements of [queries.go]. *)
Record MoreQueries := {
  projectExists : string;
  searchOccurrence : string;
  updateOccurrence : string;
  searchNote : string;
  updateNote : string;
  listNoteOccurrences : string;
  NoteOccurrencesMaxID : string
}.

Section MoreStore.

Variable E : Env.
Variable L : Lookup E.
Variable Q : Queries.
Variable Q' : MoreQueries.

(** [NewPgSQLStore]. *)
Definition NewPgSQLStore (config : Config) (w : World E)
  : (PgSQLStore E + error) * World E :=
  NewStoreWithCustomConnector E Q (driver_Connector L (newDSNConnector config))
                              (PaginationKey config) w.

Variable pg : PgSQLStore E.

(** [GetProject]. *)
Definition GetProject (pID : string) (w : World E)
  : (Project + error) * World E :=
  let pName := name_FormatProject E pID in
  match sql_QueryRowContext_Scan_bool L (DB pg) (projectExists Q')
                                      [arg_string pName] w with
  | (row_scanned exists_, w1) =>
      if negb exists_ then
        (inr (status_Errorf NotFound
                "Project with name %q does not Exist" [pName]), w1)
      else (inl {| prj_Name := pName |}, w1)
  | (_, w1) =>
      (inr (status_Error Internal "Failed to query Project from database"), w1)
  end.

(** [UpdateOccurrence]; the field mask is an argument that the method
    does not read. *)
Definition UpdateOccurrence (pID oID : string) (o : Occurrence)
           (mask : list string) (w : World E) : (Occurrence + error) * World E :=
  let (now, w1) := ptypes_TimestampNow E w in
  let o := {| o_Name := o_Name o; o_NoteName := o_NoteName o;
              o_CreateTime := o_CreateTime o; o_UpdateTime := Some now;
              o_rest := o_rest o |} in
  match sql_ExecContext E (DB pg) (updateOccurrence Q')
          [arg_string (MarshalTextString_Occurrence E o);
           arg_string pID; arg_string oID] w1 with
  | (inr _, w2) => (inr (status_Error Internal "Failed to update Occurrence"), w2)
  | (inl result, w2) =>
      match RowsAffected result with
      | inr _ => (inr (status_Error Internal "Failed to update Occurrence"), w2)
      | inl count =>
          if count =? 0 then
            (inr (status_Errorf NotFound
                    "Occurrence with name %q/%q does not Exist" [pID; oID]), w2)
          else (inl o, w2)
      end
  end.

(** [GetOccurrence]. *)
Definition GetOccurrence (pID oID : string) (w : World E)
  : (Occurrence + error) * World E :=
  match sql_QueryRowContext_Scan_string L (DB pg) (searchOccurrence Q')
                                        [arg_string pID; arg_string oID] w with
  | (row_ErrNoRows, w1) =>
      (inr (status_Errorf NotFound
              "Occurrence with name %q/%q does not Exist" [pID; oID]), w1)
  | (row_error _, w1) =>
      (inr (status_Error Internal "Failed to query Occurrence from database"), w1)
  | (row_scanned data, w1) =>
      match UnmarshalText_Occurrence E data with
      | inr _ =>
          (inr (status_Error Internal
                  "Failed to unmarshal Occurrence from database"), w1)
      | inl o =>
          (inl {| o_Name := name_FormatOccurrence L pID oID;
                  o_NoteName := o_NoteName o; o_CreateTime := o_CreateTime o;
                  o_UpdateTime := o_UpdateTime o; o_rest := o_rest o |}, w1)
      end
  end.

(** [UpdateNote]; the field mask is an argument that the method does not
    read. *)
Definition UpdateNote (pID nID : string) (n : Note) (mask : list string)
           (w : World E) : (Note + error) * World E :=
  let nName := name_FormatNote E pID nID in
  let n := {| n_Name := nName; n_CreateTime := n_CreateTime n;
              n_UpdateTime := n_UpdateTime n; n_rest := n_rest n |} in
  let (now, w1) := ptypes_TimestampNow E w in
  let n := {| n_Name := n_Name n; n_CreateTime := n_CreateTime n;
              n_UpdateTime := Some now; n_rest := n_rest n |} in
  match sql_ExecContext E (DB pg) (updateNote Q')
          [arg_string (MarshalTextString_Note E n);
           arg_string pID; arg_string nID] w1 with
  | (inr _, w2) => (inr (status_Error Internal "Failed to update Note"), w2)
  | (inl result, w2) =>
      match RowsAffected result with
      | inr _ => (inr (status_Error Internal "Failed to update Note"), w2)
      | inl count =>
          if count =? 0 then
            (inr (status_Errorf NotFound
                    "Note with name %q/%q does not Exist" [pID; nID]), w2)
          else (inl n, w2)
      end
  end.

(** [GetNote]. *)
Definition GetNote (pID nID : string) (w : World E) : (Note + error) * World E :=
  match sql_QueryRowContext_Scan_string L (DB pg) (searchNote Q')
                                        [arg_string pID; arg_string nID] w with
  | (row_ErrNoRows, w1) =>
      (inr (status_Errorf NotFound
              "Note with name %q/%q does not Exist" [pID; nID]), w1)
  | (row_error _, w1) =>
      (inr (status_Error Internal "Failed to query Note from database"), w1)
  | (row_scanned data, w1) =>
      match UnmarshalText_Note E data with
      | inr _ =>
          (inr (status_Error Internal "Failed to unmarshal Note from database"), w1)
      | inl note =>
          (inl {| n_Name := name_FormatNote E pID nID;
                  n_CreateTime := n_CreateTime note;
                  n_UpdateTime := n_UpdateTime note; n_rest := n_rest note |}, w1)
      end
  end.

(** [GetOccurrenceNote]. *)
Definition GetOccurrenceNote (pID oID : string) (w : World E)
  : (Note + error) * World E :=
  match GetOccurrence pID oID w with
  | (inr err, w1) => (inr err, w1)
  | (inl o, w1) =>
      match name_ParseNote E (o_NoteName o) with
      | inr _ => (inr (status_Error InvalidArgument "Invalid Note name"), w1)
      | inl (nPID, nID) =>
          match GetNote nPID nID w1 with
          | (inr err, w2) => (inr err, w2)
          | (inl n, w2) =>
              (inl {| n_Name := name_FormatNote E nPID nID;
                      n_CreateTime := n_CreateTime n;
                      n_UpdateTime := n_UpdateTime n; n_rest := n_rest n |}, w2)
          end
      end
  end.

(** [ListNoteOccurrences]; the filter is an argument that the method does
    not read. *)
Definition ListNoteOccurrences (pID nID filter pageToken : string) (pageSize : Z)
           (w : World E) : ((list Occurrence * string) + error) * World E :=
  match GetNote pID nID w with
  | (inr err, w1) => (inr err, w1)
  | (inl _, w1) =>
      let id := decryptInt64 E pageToken (paginationKey pg) 0 w1 in
      match sql_QueryContext E (DB pg) (listNoteOccurrences Q')
              [arg_string pID; arg_string nID; arg_int id; arg_int pageSize]
              w1 with
      | (inr _, w2) =>
          (inr (status_Error Internal
                  "Failed to list Occurrences from database"), w2)
      | (inl rows, w2) =>
          match scan_rows (UnmarshalText_Occurrence E)
                          "Failed to scan Occurrences row"
                          "Failed to unmarshal Occurrence from database"
                          rows [] 0 with
          | inr err => (inr err, w2)
          | inl (os, lastID) =>
              next_page E pg os lastID (NoteOccurrencesMaxID Q')
                        [arg_string pID; arg_string nID]
                        "Failed to query max NoteOccurrences from database"
                        "Failed to paginate note occurrences" w2
          end
      end
  end.

End MoreStore.

(* ================================================================== *)
(** * What the further theorems speak of *)
(* ================================================================== *)

(** Every call of an operator in the tree has its two operands, and no
    call is a [has]. *)
Fixpoint operands_present (ops : Operators) (e : Expr) : bool :=
  match e with
  | CallExpr f args =>
      (String.eqb (sqlOp_of ops f) "" ||
       (Nat.leb 2 (List.length args) &&
        negb (String.eqb (sqlOp_of ops f) "like"))) &&
      forallb (operands_present ops) args
  | SelectExpr operand _ => operands_present ops operand
  | _ => true
  end.

(** A row that the loop over the rows cannot turn into an item. *)
Definition unreadable {A : Type} (decode : string -> A + error)
           (row : (Z * string) + error) : Prop :=
  match row with
  | inr _ => True
  | inl (_, data) => match decode data with inr _ => True | inl _ => False end
  end.

Definition is_Internal {A : Type} (r : A + error) : Prop :=
  match r with
  | inr (status_Error Internal _) => True
  | _ => False
  end.

(** A token that the store with key [key] no longer reads in world [w]:
    it was sealed more than an hour before, or with another key. *)
Definition stale_token (E : Env) (key : string) (tok : string) (w : World E)
  : Prop :=
  exists msg k w0 w1,
    fernet_EncryptAndSign E msg k w0 = (inl tok, w1) /\
    (token_time E w0 + time_Hour < time_Now E w \/
     exists k', fernet.DecodeKey key = Some k' /\ k' <> k).

(** The text of a string literal up to its first quote. *)
Definition up_to_quote (v : string) : string := hd "" (strings.Split v "'").

(* ================================================================== *)
(** * The scripted world, for the rest of the store *)
(* ================================================================== *)

Module mock_lookup.

(** A single row comes from the script as well: a count for a [bool]
    (zero is [false]), the first row of a result for a [string]. *)
Definition Scan_bool (_ : unit) (query : string) (args : list sqlarg)
           (w : mock.State) : row_scan bool * mock.State :=
  match mock.script w with
  | mock.on_query_row (inl n) :: _ => (row_scanned (negb (n =? 0)), mock.next w)
  | mock.on_query_row (inr e) :: _ => (row_error e, mock.next w)
  | _ => (row_error mock.unexpected, w)
  end.

Definition Scan_string (_ : unit) (query : string) (args : list sqlarg)
           (w : mock.State) : row_scan string * mock.State :=
  match mock.script w with
  | mock.on_query (inl []) :: _ => (row_ErrNoRows, mock.next w)
  | mock.on_query (inl (inl (_, data) :: _)) :: _ =>
      (row_scanned data, mock.next w)
  | mock.on_query (inl (inr e :: _)) :: _ => (row_error e, mock.next w)
  | mock.on_query (inr e) :: _ => (row_error e, mock.next w)
  | _ => (row_error mock.unexpected, w)
  end.

(** A text form of a note that can be read back: the name with its
    length, the two times, the rest. *)
Definition time_text (t : option Timestamp) : string :=
  match t with
  | None => "N"
  | Some v =>
      String (if v <? 0 then "-" else "+")
             (mock.ones (Z.abs_nat v) ++ ":")
  end.

Definition read_time (s : string) : option (option Timestamp * string) :=
  match s with
  | EmptyString => None
  | String c r =>
      if Ascii.eqb c "N" then Some (None, r)
      else
        let (m, r1) := mock.count_ones r in
        match r1 with
        | EmptyString => None
        | String c' r2 =>
            if negb (Ascii.eqb c' ":") then None
            else if Ascii.eqb c "-" then Some (Some (- Z.of_nat m), r2)
            else if Ascii.eqb c "+" then Some (Some (Z.of_nat m), r2)
            else None
        end
  end.

Definition Marshal_Note (n : Note) : string :=
  mock.ones (String.length (n_Name n)) ++ ":" ++ n_Name n ++
  time_text (n_CreateTime n) ++ time_text (n_UpdateTime n) ++ n_rest n.

Definition Unmarshal_Note (s : string) : Note + error :=
  let (len, r) := mock.count_ones s in
  match r with
  | EmptyString => inr (other_error "proto: syntax error")
  | String c r1 =>
      if negb (Ascii.eqb c ":") then inr (other_error "proto: syntax error")
      else
        match mock.split_at len r1 with
        | None => inr (other_error "proto: syntax error")
        | Some (name, r2) =>
            match read_time r2 with
            | None => inr (other_error "proto: syntax error")
            | Some (created, r3) =>
                match read_time r3 with
                | None => inr (other_error "proto: syntax error")
                | Some (updated, rest) =>
                    inl {| n_Name := name; n_CreateTime := created;
                           n_UpdateTime := updated; n_rest := rest |}
                end
            end
        end
  end.

(** A parser that knows one more filter, a [has] with a number. *)
Definition has_filter : string := "resource.name:10".

Definition has_filter_tree : Expr :=
  CallExpr (Has mock.ops)
    [SelectExpr (IdentExpr "resource") "name"; ConstExpr (Int64Value 10)].

Definition Parse (filter : string) : ParseResult :=
  if String.eqb filter has_filter then Parsed has_filter_tree
  else mock.Parse filter.

(** The scripted world of [mock], with this text form for notes and this
    parser. *)
Definition env : Env := {|
  World := mock.State;
  Connector := unit;
  sql_Ping := mock.Ping;
  sql_ExecContext := mock.ExecContext;
  sql_QueryContext := mock.QueryContext;
  sql_QueryRowContext_Scan := mock.QueryRowContext_Scan;
  sql_Close := fun _ w => w;
  time_Now := mock.clock;
  fernet_Generate := fun w => (inr (other_error "no randomness"), w);
  fernet_Encode := fun k => k;
  fernet_EncryptAndSign := mock.EncryptAndSign;
  fernet_VerifyAndDecrypt := mock.VerifyAndDecrypt;
  ptypes_TimestampNow := fun w => (mock.clock w, w);
  uuid_NewRandom := mock.NewRandom;
  name_FormatProject := fun pID => "projects/" ++ pID;
  name_FormatNote := fun pID nID => "projects/" ++ pID ++ "/notes/" ++ nID;
  name_ParseNote := mock.ParseNote;
  MarshalTextString_Note := Marshal_Note;
  UnmarshalText_Note := Unmarshal_Note;
  MarshalTextString_Occurrence := o_NoteName;
  UnmarshalText_Occurrence :=
    fun s => inl {| o_Name := ""; o_NoteName := s; o_CreateTime := None;
                    o_UpdateTime := None; o_rest := "" |};
  operators := mock.ops;
  fmt_Sprintf_f := fun _ => "0.000000";
  parser_Parse := Parse
|}.

Definition lookup : Lookup env :=
  Build_Lookup env (fun _ => tt) Scan_bool Scan_string
    (fun pID oID => "projects/" ++ pID ++ "/occurrences/" ++ oID).

(** Statements for the scripted world; the script answers a call
    whatever its text. *)
Definition queries : MoreQueries := {|
  projectExists := "SELECT EXISTS (SELECT 1 FROM projects WHERE name = $1)";
  searchOccurrence :=
    "SELECT data FROM occurrences WHERE project_id = $1 AND occurrence_id = $2";
  updateOccurrence :=
    "UPDATE occurrences SET data = $1 WHERE project_id = $2 AND occurrence_id = $3";
  searchNote := "SELECT data FROM notes WHERE project_id = $1 AND note_id = $2";
  updateNote := "UPDATE notes SET data = $1 WHERE project_id = $2 AND note_id = $3";
  listNoteOccurrences :=
    "SELECT id, data FROM occurrences WHERE note_project_id = $1 AND note_id = $2 AND id > $3 ORDER BY id LIMIT $4";
  NoteOccurrencesMaxID :=
    "SELECT MAX(id) FROM occurrences WHERE note_project_id = $1 AND note_id = $2"
|}.

Definition store : PgSQLStore env := Build_PgSQLStore env tt mock.test_key.

Definition config : Config := {|
  Host := "127.0.0.1:5432";
  Port := 0;
  DBName := "test_db";
  User := "postgres";
  Password := "password";
  SSLMode := "disable";
  SSLRootCert := "";
  PaginationKey := mock.test_key
|}.

End mock_lookup.

(* ================================================================== *)
(** * More tactics *)
(* ================================================================== *)

(** [run_fs], in a hypothesis. *)
Ltac run_fs_in H :=
  cbv beta iota delta
      [sqlFromSelect fs_bind fs_get fs_put fs_ret fs_panic at_index
       formatLikeString nth_error selects] in H.

(* ================================================================== *)
(** * Strings *)
(* ================================================================== *)

Lemma append_assoc (a b c : string) : (a ++ b) ++ c = a ++ (b ++ c).
Proof.
  induction a as [|x a IH]; simpl; [reflexivity | now rewrite IH].
Qed.

Lemma append_nil_r (a : string) : a ++ "" = a.
Proof.
  induction a as [|x a IH]; simpl; [reflexivity | now rewrite IH].
Qed.

Lemma length_append (a b : string) :
  String.length (a ++ b) = (String.length a + String.length b)%nat.
Proof.
  induction a as [|x a IH]; simpl; [reflexivity | now rewrite IH].
Qed.

Lemma append_inv_head (a b c : string) : a ++ b = a ++ c -> b = c.
Proof.
  induction a as [|x a IH]; simpl; intros H; [exact H | injection H; auto].
Qed.

Lemma Split_never_empty (s : string) (sep : ascii) : strings.Split s sep <> [].
Proof.
  destruct s as [|c r]; simpl; [discriminate |].
  destruct (Ascii.eqb c sep); [discriminate |].
  destruct (strings.Split r sep); discriminate.
Qed.

(** A text without the separator is not split. *)
Lemma Split_without_separator (s : string) (sep : ascii) :
  strings.ContainsByte s sep = false -> strings.Split s sep = [s].
Proof.
  induction s as [|c r IH]; simpl; intros H; [reflexivity |].
  apply orb_false_iff in H. destruct H as [Hc Hr].
  rewrite Hc, (IH Hr). reflexivity.
Qed.

(** The split after a first part without the separator. *)
Lemma Split_at_separator (s rest : string) (sep : ascii) :
  strings.ContainsByte s sep = false ->
  strings.Split (s ++ String sep rest) sep = s :: strings.Split rest sep.
Proof.
  induction s as [|c r IH]; simpl; intros H.
  - now rewrite Ascii.eqb_refl.
  - apply orb_false_iff in H. destruct H as [Hc Hr].
    rewrite Hc, (IH Hr). reflexivity.
Qed.

(* ================================================================== *)
(** * The filter compiler *)
(* ================================================================== *)

Lemma sqlOp_of_binary (ops : Operators) :
  NoDup (case_constants ops) ->
  forall f op, In (f, op) (binary_operators ops) -> sqlOp_of ops f = op.
Proof.
  intros H f op Hin. unfold binary_operators in Hin. simpl in Hin.
  repeat (destruct Hin as [Hin | Hin];
          [ injection Hin as <- <-; switch_on H | ]).
  contradiction.
Qed.

Lemma sqlOp_of_Has (ops : Operators) :
  NoDup (case_constants ops) -> sqlOp_of ops (Has ops) = "like".
Proof.
  intros H. switch_on H.
Qed.

(** The operators of [binary_operators] are rendered by the third branch
    of [sqlFromCall]. *)
Lemma binary_operator_text (ops : Operators) (f op : string) :
  In (f, op) (binary_operators ops) ->
  String.eqb op "[" = false /\ String.eqb op "like" = false /\
  String.eqb op "" = false.
Proof.
  unfold binary_operators. simpl. intros H.
  repeat (destruct H as [H | H]; [injection H as <- <-; now vm_compute |]).
  contradiction.
Qed.

Section CompilerFacts.

Variable ops : Operators.
Variable Sprintf_f : Z -> string.
Hypothesis distinct : NoDup (case_constants ops).

Local Abbreviation compile := (makeSQL ops Sprintf_f).

Lemma makeSQL_call (f : string) (args : list Expr) :
  compile (CallExpr f args) = sqlFromCall ops compile f args.
Proof. reflexivity. Qed.

Lemma makeSQL_select (operand : Expr) (field : string) :
  compile (SelectExpr operand field) =
  (n <- fs_get ;;
   fs_put (n + 1) ;;;
   retStr <- sqlFromSelect compile operand field ;;
   n' <- fs_get ;;
   fs_put (n' - 1) ;;;
   n'' <- fs_get ;;
   if n'' =? 0 then fs_ret (json_path (strings.Split retStr "."))
   else fs_ret retStr)%fs.
Proof. reflexivity. Qed.

Lemma makeSQL_ident (name : string) :
  compile (IdentExpr name) =
  (n <- fs_get ;;
   if 0 <? n then fs_ret name else fs_ret ("data->>'" ++ name ++ "'"))%fs.
Proof. reflexivity. Qed.

(** Every operator of [binary_operators] yields [(lhs op rhs)]. *)
Lemma makeSQL_binary (f op : string) (l r : Expr) (fs fs1 fs2 : FilterSQL)
      (sl sr : string) :
  In (f, op) (binary_operators ops) ->
  compile l fs = Returns (sl, fs1) ->
  compile r fs1 = Returns (sr, fs2) ->
  compile (CallExpr f [l; r]) fs =
  Returns ("(" ++ sl ++ " " ++ op ++ " " ++ sr ++ ")", fs2).
Proof.
  intros Hin Hl Hr.
  pose proof (sqlOp_of_binary ops distinct f op Hin) as Hop.
  destruct (binary_operator_text ops f op Hin) as (H1 & H2 & H3).
  rewrite makeSQL_call. unfold sqlFromCall, range_append, fs_bind.
  rewrite Hl, Hr, Hop, H1, H2, H3. reflexivity.
Qed.

(** [has] with a second argument whose text holds no quote: the pattern
    cannot be built. *)
Lemma makeSQL_has_unquoted (l r : Expr) (fs fs1 fs2 : FilterSQL) (sl sr : string) :
  compile l fs = Returns (sl, fs1) ->
  compile r fs1 = Returns (sr, fs2) ->
  strings.ContainsByte sr "'" = false ->
  compile (CallExpr (Has ops) [l; r]) fs = Panics (IndexOutOfRange 1 1).
Proof.
  intros Hl Hr Hq.
  rewrite makeSQL_call. unfold sqlFromCall, range_append, fs_bind.
  rewrite Hl, Hr, (sqlOp_of_Has ops distinct).
  change (String.eqb "like" "[") with false.
  change (String.eqb "like" "like") with true.
  cbv beta iota delta [fs_ret at_index formatLikeString fs_bind nth_error].
  rewrite (Split_without_separator sr "'" Hq). reflexivity.
Qed.

(** Inside a selection, a chain of selections is the dotted path. *)
Lemma makeSQL_inner_chain (fields : list string) :
  forall (e : Expr) (s : string),
    (forall n, 0 < n ->
               compile e {| selects := n |} = Returns (s, {| selects := n |})) ->
    forall n, 0 < n ->
      compile (fold_left SelectExpr fields e) {| selects := n |} =
      Returns (fold_left (fun acc f => acc ++ "." ++ f) fields s,
               {| selects := n |}).
Proof.
  induction fields as [|f fields IH]; intros e s He n Hn; simpl fold_left.
  - now apply He.
  - apply IH; [| exact Hn]. clear n Hn. intros n Hn.
    rewrite makeSQL_select. run_fs.
    rewrite (He (n + 1)) by lia. run_fs.
    replace (n + 1 - 1) with n by lia.
    destruct (Z.eqb_spec n 0); [lia | reflexivity].
Qed.

Lemma makeSQL_inner_ident (name : string) (n : Z) :
  0 < n ->
  compile (IdentExpr name) {| selects := n |} = Returns (name, {| selects := n |}).
Proof.
  intros Hn. rewrite makeSQL_ident. run_fs.
  destruct (Z.ltb_spec 0 n); [reflexivity | lia].
Qed.

End CompilerFacts.

(** The dotted text, read from the left. *)
Lemma dotted_cons (fields : list string) (s f : string) :
  fold_left (fun acc x => acc ++ "." ++ x) fields (s ++ "." ++ f) =
  s ++ "." ++ fold_left (fun acc x => acc ++ "." ++ x) fields f.
Proof.
  revert s f. induction fields as [|g fields IH]; intros s f; cbn [fold_left].
  - reflexivity.
  - rewrite <- IH. f_equal. now rewrite !append_assoc.
Qed.

Lemma Split_dotted (fields : list string) (x0 : string) :
  Forall (fun x => strings.ContainsByte x "." = false) (x0 :: fields) ->
  strings.Split (fold_left (fun acc x => acc ++ "." ++ x) fields x0) "." =
  x0 :: fields.
Proof.
  revert x0. induction fields as [|f fields IH]; intros x0 H; cbn [fold_left].
  - inversion H; subst. now apply Split_without_separator.
  - inversion H as [|? ? H0 Hrest]; subst.
    rewrite dotted_cons.
    change ("." ++ ?x) with (String "." x).
    rewrite Split_at_separator by assumption.
    now rewrite IH.
Qed.

(** The loop over the segments, from segment [length done] on. *)
Lemma json_path_from (rest done : list string) (acc : string) :
  fold_left
    (fun retVal i =>
       if negb (Nat.eqb i (List.length (done ++ rest) - 1))
       then retVal ++ "->'" ++ nth i (done ++ rest)%list "" ++ "'"
       else retVal ++ "->>'" ++ nth i (done ++ rest)%list "" ++ "'")
    (seq (List.length done) (List.length rest)) acc =
  acc ++ arrows rest.
Proof.
  revert done acc. induction rest as [|x rest IH]; intros done acc.
  - simpl. now rewrite append_nil_r.
  - cbn [List.length seq fold_left].
    rewrite (nth_middle done rest x "").
    replace (done ++ x :: rest)%list with ((done ++ [x]) ++ rest)%list
      by now rewrite <- app_assoc.
    replace (S (List.length done)) with (List.length (done ++ [x])%list)
      by (rewrite length_app; simpl; lia).
    rewrite IH.
    destruct rest as [|y rest].
    + rewrite app_nil_r, length_app. cbn [List.length arrows].
      replace (List.length done + 1 - 1)%nat with (List.length done) by lia.
      rewrite Nat.eqb_refl. cbn [negb]. now rewrite append_nil_r.
    + assert (Hne : Nat.eqb (List.length done)
                            (List.length ((done ++ [x]) ++ y :: rest)%list - 1) = false).
      { apply Nat.eqb_neq. rewrite !length_app. simpl. lia. }
      rewrite Hne. cbn [negb].
      change (arrows (x :: y :: rest)) with ("->'" ++ x ++ "'" ++ arrows (y :: rest)).
      now rewrite !append_assoc.
Qed.

Lemma json_path_arrows (spl : list string) : json_path spl = "data" ++ arrows spl.
Proof.
  unfold json_path. exact (json_path_from spl [] "data").
Qed.

(** A dotted path at the top level: every segment but the last with [->],
    the last with [->>], from the column [data]. *)
Lemma makeSQL_path (ops : Operators) (Sprintf_f : Z -> string)
      (x0 : string) (fields : list string) (last : string) :
  Forall (fun x => strings.ContainsByte x "." = false)
         (x0 :: fields ++ [last]) ->
  makeSQL ops Sprintf_f (select_chain x0 (fields ++ [last])) {| selects := 0 |} =
  Returns ("data" ++ arrows (x0 :: fields ++ [last]), {| selects := 0 |}).
Proof.
  intros Hdots. unfold select_chain. rewrite fold_left_app. cbn [fold_left].
  rewrite makeSQL_select. run_fs.
  rewrite (makeSQL_inner_chain ops Sprintf_f fields (IdentExpr x0) x0)
    by (intros; try apply makeSQL_inner_ident; lia).
  run_fs. change (0 + 1 - 1 =? 0) with true. cbv iota.
  rewrite <- json_path_arrows. do 3 f_equal.
  replace (fold_left (fun acc f => acc ++ "." ++ f) fields x0 ++ "." ++ last)
    with (fold_left (fun acc f => acc ++ "." ++ f) (fields ++ [last]) x0)
    by now rewrite fold_left_app.
  now apply Split_dotted.
Qed.

(* ================================================================== *)
(** * Decimal text of an [int64] *)
(* ================================================================== *)

Lemma digit_char_small (u : Z) :
  u < 10 ->
  exists k, (k < 10)%nat /\ strconv.digit_char u = ascii_of_nat (48 + k).
Proof.
  intros H. exists (Z.to_nat u). split; [lia | reflexivity].
Qed.

(** A digit is none of the characters [c] that matter here. *)
Lemma digit_char_differs (c : ascii) (u : Z) :
  (forall k, (k < 10)%nat -> Ascii.eqb (ascii_of_nat (48 + k)) c = false) ->
  u < 10 -> Ascii.eqb (strconv.digit_char u) c = false.
Proof.
  intros Hc Hu. destruct (digit_char_small u Hu) as (k & Hk & ->). now apply Hc.
Qed.

Lemma digits_differ_from (c : ascii) :
  (48 <=? Z.of_nat (nat_of_ascii c)) && (Z.of_nat (nat_of_ascii c) <=? 57) = false ->
  forall k, (k < 10)%nat -> Ascii.eqb (ascii_of_nat (48 + k)) c = false.
Proof.
  intros Hc k Hk. apply Ascii.eqb_neq. intros <-.
  rewrite nat_ascii_embedding in Hc by lia.
  apply andb_false_iff in Hc. destruct Hc as [Hc | Hc].
  - apply Z.leb_gt in Hc. lia.
  - apply Z.leb_gt in Hc. lia.
Qed.

(** The digit loop writes digits only. *)
Lemma formatBits_without (c : ascii) :
  (48 <=? Z.of_nat (nat_of_ascii c)) && (Z.of_nat (nat_of_ascii c) <=? 57) = false ->
  forall fuel u acc,
    strings.ContainsByte acc c = false ->
    strings.ContainsByte (strconv.formatBits fuel u acc) c = false.
Proof.
  intros Hc. pose proof (digits_differ_from c Hc) as Hd.
  induction fuel as [|fuel IH]; intros u acc Hacc; cbn [strconv.formatBits];
    [exact Hacc |].
  destruct (Z.ltb_spec u 10) as [Hu | Hu].
  - cbn [strings.ContainsByte]. rewrite (digit_char_differs c u Hd Hu). exact Hacc.
  - apply IH. cbn [strings.ContainsByte].
    rewrite (digit_char_differs c (u mod 10) Hd); [exact Hacc |].
    apply Z.mod_pos_bound. lia.
Qed.

Lemma FormatUint_without (c : ascii) (u : Z) :
  (48 <=? Z.of_nat (nat_of_ascii c)) && (Z.of_nat (nat_of_ascii c) <=? 57) = false ->
  strings.ContainsByte (strconv.FormatUint u) c = false.
Proof.
  intros Hc. unfold strconv.FormatUint. now apply formatBits_without.
Qed.

(** The decimal text of an integer holds no quote. *)
Lemma FormatInt_without_quote (v : Z) :
  strings.ContainsByte (strconv.FormatInt v) "'" = false.
Proof.
  unfold strconv.FormatInt. destruct (v <? 0).
  - cbn [strings.ContainsByte]. change (Ascii.eqb "-" "'") with false.
    now apply FormatUint_without.
  - now apply FormatUint_without.
Qed.

Lemma formatBits_length (fuel : nat) (u : Z) (acc : string) :
  (String.length acc <= String.length (strconv.formatBits fuel u acc))%nat.
Proof.
  revert u acc. induction fuel as [|fuel IH]; intros u acc;
    cbn [strconv.formatBits]; [lia |].
  destruct (u <? 10); cbn [String.length]; [lia |].
  specialize (IH (u / 10) (String (strconv.digit_char (u mod 10)) acc)).
  cbn [String.length] in IH. lia.
Qed.

Lemma formatBits_not_empty (fuel : nat) (u : Z) (acc : string) :
  strconv.formatBits (S fuel) u acc <> "".
Proof.
  cbn [strconv.formatBits]. destruct (u <? 10); [discriminate |].
  pose proof (formatBits_length fuel (u / 10)
                (String (strconv.digit_char (u mod 10)) acc)) as Hlen.
  intros E. rewrite E in Hlen. cbn [String.length] in Hlen. lia.
Qed.

Lemma digit_val_digit_char (d : Z) :
  0 <= d < 10 -> strconv.digit_val (strconv.digit_char d) = Some d.
Proof.
  intros Hd. unfold strconv.digit_val, strconv.digit_char.
  rewrite nat_ascii_embedding by lia.
  replace (Z.of_nat (48 + Z.to_nat d)) with (48 + d) by lia.
  destruct (Z.leb_spec 48 (48 + d)); [| lia].
  destruct (Z.leb_spec (48 + d) 57); [| lia].
  cbn [andb]. f_equal. lia.
Qed.

(** One round of the loop of [ParseUint] on the digit [d], from [n]. *)
Lemma parseUintLoop_digit (d n : Z) (rest : string) :
  0 <= d < 10 -> 0 <= n -> n * 10 + d <= strconv.maxUint64 ->
  strconv.parseUintLoop (String (strconv.digit_char d) rest) n =
  strconv.parseUintLoop rest (n * 10 + d).
Proof.
  intros Hd Hn Hmax. cbn [strconv.parseUintLoop].
  rewrite (digit_val_digit_char d Hd).
  unfold strconv.maxUint64 in *.
  change (2 ^ 64) with 18446744073709551616 in *.
  change ((18446744073709551616 - 1) / 10 + 1) with 1844674407370955162.
  destruct (Z.leb_spec 1844674407370955162 n); [lia |].
  cbv zeta. rewrite (Z.mod_small (n * 10 + d)) by lia.
  destruct (Z.ltb_spec (n * 10 + d) (n * 10)); [lia |].
  destruct (Z.ltb_spec (18446744073709551616 - 1) (n * 10 + d)); [lia |].
  reflexivity.
Qed.

(** Reading the digits that the digit loop wrote gives the number back. *)
Lemma parseUintLoop_formatBits (fuel : nat) :
  forall u acc,
    0 <= u <= strconv.maxUint64 -> u < 10 ^ Z.of_nat fuel ->
    strconv.parseUintLoop (strconv.formatBits fuel u acc) 0 =
    strconv.parseUintLoop acc u.
Proof.
  induction fuel as [|fuel IH]; intros u acc Hu Hfuel.
  - change (10 ^ Z.of_nat 0) with 1 in Hfuel. cbn [strconv.formatBits].
    now replace u with 0 by lia.
  - cbn [strconv.formatBits].
    destruct (Z.ltb_spec u 10) as [Hlt | Hge].
    + rewrite parseUintLoop_digit; [f_equal; lia | lia | lia | lia].
    + assert (Hdiv : u = u / 10 * 10 + u mod 10).
      { rewrite (Z.mul_comm (u / 10)). apply Z.div_mod. lia. }
      assert (Hmod : 0 <= u mod 10 < 10) by (apply Z.mod_pos_bound; lia).
      assert (Hq : 0 <= u / 10) by (apply Z.div_pos; lia).
      rewrite IH.
      * rewrite parseUintLoop_digit; [f_equal; lia | lia | lia | lia].
      * unfold strconv.maxUint64 in *. lia.
      * rewrite Nat2Z.inj_succ, Z.pow_succ_r in Hfuel by lia.
        apply Z.div_lt_upper_bound; lia.
Qed.

Lemma ParseUint_FormatUint (u : Z) :
  0 <= u <= strconv.maxUint64 ->
  strconv.ParseUint (strconv.FormatUint u) = inl u.
Proof.
  intros Hu. unfold strconv.ParseUint.
  pose proof (parseUintLoop_formatBits 20 u "" Hu) as H.
  fold (strconv.FormatUint u) in H.
  destruct (strconv.FormatUint u) as [|c r] eqn:E.
  - exfalso. exact (formatBits_not_empty 19 u "" E).
  - rewrite H; [reflexivity |].
    unfold strconv.maxUint64 in Hu.
    change (2 ^ 64) with 18446744073709551616 in Hu.
    change (10 ^ Z.of_nat 20) with 100000000000000000000. lia.
Qed.

(** [ParseInt] reads back what [FormatInt] wrote, for every [int64]. *)
Lemma ParseInt_FormatInt (v : Z) :
  is_int64 v -> strconv.ParseInt (strconv.FormatInt v) = inl v.
Proof.
  unfold is_int64. change (2 ^ 63) with 9223372036854775808. intros Hv.
  unfold strconv.FormatInt.
  destruct (Z.ltb_spec v 0) as [Hneg | Hpos].
  - cbn [strconv.ParseInt].
    change (Ascii.eqb "-" "-") with true. change (Ascii.eqb "-" "+") with false.
    cbn [orb]. cbv zeta.
    rewrite ParseUint_FormatUint
      by (unfold strconv.maxUint64; change (2 ^ 64) with 18446744073709551616; lia).
    cbn [negb andb].
    change (2 ^ 63) with 9223372036854775808.
    destruct (Z.ltb_spec 9223372036854775808 (- v)); [lia |].
    f_equal. unfold strconv.to_int64.
    change (2 ^ 63) with 9223372036854775808.
    change (2 ^ 64) with 18446744073709551616.
    destruct (Z.eq_dec v (-9223372036854775808)) as [-> | Hne]; [reflexivity |].
    rewrite (Z.mod_small (- v + 9223372036854775808)) by lia.
    replace (- (- v + 9223372036854775808 - 9223372036854775808)) with v by lia.
    rewrite Z.mod_small by lia. lia.
  - pose proof (FormatUint_without "+" v eq_refl) as Hplus.
    pose proof (FormatUint_without "-" v eq_refl) as Hminus.
    assert (Hparse : strconv.ParseUint (strconv.FormatUint v) = inl v).
    { apply ParseUint_FormatUint. unfold strconv.maxUint64.
      change (2 ^ 64) with 18446744073709551616. lia. }
    destruct (strconv.FormatUint v) as [|c r] eqn:E.
    + discriminate.
    + cbn [strconv.ParseInt]. cbn [strings.ContainsByte] in Hplus, Hminus.
      apply orb_false_iff in Hplus, Hminus.
      destruct Hplus as [Hplus _]. destruct Hminus as [Hminus _].
      rewrite Hplus, Hminus. cbn [orb]. cbv zeta.
      rewrite Hparse.
      cbn [negb andb].
      change (2 ^ 63) with 9223372036854775808.
      destruct (Z.leb_spec 9223372036854775808 v); [lia |].
      f_equal. unfold strconv.to_int64.
      change (2 ^ 63) with 9223372036854775808.
      change (2 ^ 64) with 18446744073709551616.
      rewrite Z.mod_small by lia. lia.
Qed.

(* ================================================================== *)
(** * The scripted world keeps the contract of [fernet] *)
(* ================================================================== *)

Lemma count_ones_ones (n : nat) (r : string) :
  mock.count_ones (mock.ones n ++ String ":" r) = (n, String ":" r).
Proof.
  induction n as [|n IH]; simpl; [reflexivity | now rewrite IH].
Qed.

Lemma split_at_append (k r : string) :
  mock.split_at (String.length k) (k ++ r) = Some (k, r).
Proof.
  induction k as [|c k IH]; simpl; [reflexivity | now rewrite IH].
Qed.

Lemma unseal_seal (k : fernet.Key) (seconds : Z) (msg : string) :
  mock.unseal (mock.seal k seconds msg) = Some (k, seconds, msg).
Proof.
  unfold mock.seal, mock.unseal.
  change (Ascii.eqb "T" "T") with true. cbn [negb].
  rewrite count_ones_ones.
  change (Ascii.eqb ":" ":") with true. cbn [negb].
  rewrite split_at_append, count_ones_ones.
  change (Ascii.eqb ":" ":") with true. cbn [negb].
  destruct (Z.ltb_spec seconds 0).
  - change (Ascii.eqb "-" "-") with true. cbv iota.
    rewrite Zabs2Nat.id_abs.
    now replace (- Z.abs seconds) with seconds by lia.
  - change (Ascii.eqb "+" "-") with false.
    change (Ascii.eqb "+" "+") with true. cbv iota.
    rewrite Zabs2Nat.id_abs.
    now replace (Z.abs seconds) with seconds by lia.
Qed.

Lemma mock_keeps_contract : FernetContract mock.env.
Proof.
  split.
  - intros msg k w tok w1 H. injection H as <- _. discriminate.
  - intros msg k w tok w1 ttl w2 H [Hlo Hhi]. injection H as <- _.
    unfold token_time, maxClockSkew in *.
    cbn [time_Now fernet_VerifyAndDecrypt mock.env] in *.
    unfold mock.VerifyAndDecrypt, maxClockSkew. rewrite unseal_seal. cbv zeta.
    change (10 ^ 9) with 1000000000 in *.
    change (Z.pow_pos 10 9) with 1000000000 in *.
    compare_all; cbn [existsb]; now rewrite String.eqb_refl.
  - intros msg k w tok w1 ttl ks w2 H Httl Hold. injection H as <- _.
    unfold token_time, maxClockSkew in *.
    cbn [time_Now fernet_VerifyAndDecrypt mock.env] in *.
    unfold mock.VerifyAndDecrypt, maxClockSkew. rewrite unseal_seal. cbv zeta.
    change (10 ^ 9) with 1000000000 in *.
    change (Z.pow_pos 10 9) with 1000000000 in *.
    compare_all.
  - intros msg k w tok w1 ttl k' w2 H Hk. injection H as <- _.
    cbn [fernet_VerifyAndDecrypt mock.env].
    unfold mock.VerifyAndDecrypt. rewrite unseal_seal. cbv zeta.
    destruct (_ && _); [reflexivity |]. cbn [existsb].
    destruct (String.eqb_spec k k'); [congruence | reflexivity].
Qed.

Lemma mock_operators_distinct : NoDup (case_constants mock.ops).
Proof.
  unfold case_constants.
  repeat (constructor; [simpl; intuition discriminate |]). constructor.
Qed.

(* ================================================================== *)
(** * The cursor *)
(* ================================================================== *)

(** A key that [fernet.DecodeKey] accepts has exactly 256 bits. *)
Lemma DecodeKey_256_bits (key : string) (k : fernet.Key) :
  fernet.DecodeKey key = Some k -> String.length k = 32%nat.
Proof.
  unfold fernet.DecodeKey. destruct (String.eqb key ""); [discriminate |].
  match goal with |- context [match ?b with Some _ => _ | None => None end] =>
    destruct b as [b0 |]; [| discriminate] end.
  destruct (Nat.eqb_spec (String.length b0) 32); [| discriminate].
  now intros [= <-].
Qed.

Section CursorFacts.

Variable E : Env.
Hypothesis contract : FernetContract E.

Lemma decrypt_of_encrypt (id : Z) (key : string) (w w1 w2 : World E)
      (tok : string) (defaultValue : Z) :
  is_int64 id ->
  encryptInt64 E id key w = (inl tok, w1) ->
  within_window E time_Hour w w2 ->
  decryptInt64 E tok key defaultValue w2 = id.
Proof.
  intros Hid Henc Hwin. unfold encryptInt64, decryptInt64 in *.
  destruct (fernet.DecodeKey key) as [k |]; [| discriminate].
  rewrite (verify_in_window E contract _ _ _ _ _ _ _ Henc Hwin).
  now rewrite ParseInt_FormatInt.
Qed.

Lemma encrypt_not_empty (id : Z) (key : string) (w w1 : World E) (tok : string) :
  encryptInt64 E id key w = (inl tok, w1) -> tok <> "".
Proof.
  unfold encryptInt64.
  destruct (fernet.DecodeKey key) as [k |]; [| discriminate].
  apply (token_not_empty E contract).
Qed.

End CursorFacts.

(* ================================================================== *)
(** * The store *)
(* ================================================================== *)

Section StoreFacts.

Variable E : Env.
Variable Q : Queries.
Variable pg : PgSQLStore E.

(** The loop of the batch methods returns the created items, in order,
    and no error. *)
Lemma batch_loop_successes {A B : Type}
      (create : A -> World E -> (B + error) * World E) (items : list A) :
  forall created errs w,
  exists w',
    batch_loop E create items created errs w =
    ((created ++ successes (outcomes_of create items w))%list, errs, w').
Proof.
  induction items as [|x items IH]; intros created errs w; simpl.
  - exists w. now rewrite app_nil_r.
  - destruct (create x w) as [[y | e] w1]; simpl.
    + destruct (IH (created ++ [y])%list errs w1) as [w' ->].
      exists w'. now rewrite <- app_assoc.
    + apply IH.
Qed.

Lemma outcomes_of_length {A B : Type}
      (create : A -> World E -> (B + error) * World E) (items : list A) :
  forall w, List.length (outcomes_of create items w) = List.length items.
Proof.
  induction items as [|x items IH]; intros w; simpl; [reflexivity |].
  destruct (create x w) as [r w1]. simpl. now rewrite IH.
Qed.

Lemma successes_inl {B : Type} (l : list B) :
  successes (map inl l) = l.
Proof.
  induction l as [|y l IH]; simpl; [reflexivity | now rewrite IH].
Qed.

Lemma successes_app {B : Type} (a b : list (B + error)) :
  successes (a ++ b) = (successes a ++ successes b)%list.
Proof.
  induction a as [|[y | e] a IH]; simpl; [reflexivity | now rewrite IH | exact IH].
Qed.

(** A batch with one duplicate: everything but the duplicate, no error. *)
Lemma batch_loop_one_duplicate {A B : Type}
      (create : A -> World E -> (B + error) * World E) (items : list A)
      (w : World E) :
  one_duplicate (outcomes_of create items w) ->
  exists created w',
    batch_loop E create items [] [] w = (created, [], w') /\
    created = successes (outcomes_of create items w) /\
    List.length created = (List.length items - 1)%nat.
Proof.
  intros (before & e & after & Houts & _).
  destruct (batch_loop_successes create items [] [] w) as [w' Hrun].
  exists (successes (outcomes_of create items w)), w'.
  split; [exact Hrun |]. split; [reflexivity |].
  rewrite <- (outcomes_of_length create items w), Houts.
  rewrite successes_app. cbn [successes].
  rewrite !successes_inl, !length_app. cbn [List.length].
  rewrite !length_map. lia.
Qed.

(** When all rows scan, there is an item for every row, and the last id
    is the id of the last row. *)
Lemma scan_rows_all {A : Type} (decode : string -> A + error)
      (scan_msg decode_msg : string) (rows : Rows) :
  forall items0 id0 items lastID,
    scan_rows decode scan_msg decode_msg rows items0 id0 = inl (items, lastID) ->
    List.length items = (List.length items0 + List.length rows)%nat /\
    (rows = [] -> lastID = id0) /\
    (rows <> [] ->
     exists before data, rows = (before ++ [inl (lastID, data)])%list).
Proof.
  induction rows as [|row rows IH]; intros items0 id0 items lastID H; simpl in H.
  - injection H as <- <-. repeat split; [simpl; lia | congruence].
  - destruct row as [[id data] | e]; [| discriminate].
    destruct (decode data) as [item | e]; [| discriminate].
    apply IH in H. destruct H as (Hlen & Hnil & Hlast).
    rewrite length_app in Hlen. simpl in Hlen.
    split; [simpl; lia |]. split; [discriminate |]. intros _.
    destruct rows as [|row' rows'].
    + exists [], data. now rewrite (Hnil eq_refl).
    + destruct (Hlast ltac:(discriminate)) as (before & data' & Heq).
      exists (inl (id, data) :: before), data'. simpl. now rewrite Heq.
Qed.

Hypothesis contract : FernetContract E.

(** The end of the list methods keeps [next_token_rule]. *)
Lemma next_page_rule {A : Type} (items : list A) (lastID : Z)
      (maxQuery : string) (maxArgs : list sqlarg) (max_msg page_msg : string)
      (w1 : World E) :
  is_int64 lastID ->
  next_token_rule E pg items lastID maxQuery maxArgs w1
    (Returns (next_page E pg items lastID maxQuery maxArgs max_msg page_msg w1)).
Proof.
  intros Hid. unfold next_token_rule, next_page. split.
  - intros ->. reflexivity.
  - intros Hne maxID w2 Hmax.
    destruct items as [|x items]; [congruence |]. cbn [List.length Nat.eqb].
    rewrite Hmax. split.
    + intros Hle. destruct (Z.leb_spec maxID lastID); [reflexivity | lia].
    + intros Hlt tok w3 Henc.
      destruct (Z.leb_spec maxID lastID); [lia |]. rewrite Henc.
      split; [reflexivity |]. split.
      * exact (encrypt_not_empty E contract _ _ _ _ _ Henc).
      * intros w4 d Hwin.
        exact (decrypt_of_encrypt E contract _ _ _ _ _ _ d Hid Henc Hwin).
Qed.

End StoreFacts.

(* ================================================================== *)
(** * The filter compiler: main results *)
(* ================================================================== *)

(** C1.  Compiling the filter
    [resource.uri="a.rpm" OR resource.uri="https://a.com/b/c/a.rpm"],
    that is the tree the parser makes of it, yields exactly
    [((data->'resource'->>'uri' = 'a.rpm') OR (data->'resource'->>'uri' = 'https://a.com/b/c/a.rpm'))]
    and leaves the selection counter at zero.  In general every binary
    operation is rendered as [(lhs op rhs)], and a dotted path at the top
    level is rendered from the column [data] with [->] before every
    segment but the last and [->>] before the last. *)
Theorem C1_compile_uri_filter (ops : Operators) (Sprintf_f : Z -> string)
        (Parse : string -> ParseResult) :
  NoDup (case_constants ops) ->
  (Parse uri_filter = Parsed (uri_filter_tree ops) ->
   ParseFilter ops Sprintf_f Parse uri_filter {| selects := 0 |} =
   Returns (uri_predicate, {| selects := 0 |})) /\
  (forall f op l r fs fs1 fs2 sl sr,
      In (f, op) (binary_operators ops) ->
      makeSQL ops Sprintf_f l fs = Returns (sl, fs1) ->
      makeSQL ops Sprintf_f r fs1 = Returns (sr, fs2) ->
      makeSQL ops Sprintf_f (CallExpr f [l; r]) fs =
      Returns ("(" ++ sl ++ " " ++ op ++ " " ++ sr ++ ")", fs2)) /\
  (forall x0 fields last,
      Forall (fun x => strings.ContainsByte x "." = false)
             (x0 :: fields ++ [last]) ->
      makeSQL ops Sprintf_f (select_chain x0 (fields ++ [last]))
              {| selects := 0 |} =
      Returns ("data" ++ arrows (x0 :: fields ++ [last]), {| selects := 0 |})).
Proof.
  intros Hd. split; [| split].
  - intros HP. unfold ParseFilter. rewrite HP. unfold uri_filter_tree.
    eapply eq_trans.
    + eapply (makeSQL_binary ops Sprintf_f Hd).
      * do 7 right. left. reflexivity.
      * eapply (makeSQL_binary ops Sprintf_f Hd);
          [left; reflexivity | reflexivity | reflexivity].
      * eapply (makeSQL_binary ops Sprintf_f Hd);
          [left; reflexivity | reflexivity | reflexivity].
    + reflexivity.
  - intros f op l r fs fs1 fs2 sl sr. apply (makeSQL_binary ops Sprintf_f Hd).
  - intros x0 fields last. apply makeSQL_path.
Qed.

Lemma C1_compile_uri_filter_witness :
  ParseFilter mock.ops (fun _ => "0.000000") mock.Parse uri_filter
              {| selects := 0 |} =
  Returns (uri_predicate, {| selects := 0 |}).
Proof.
  apply (C1_compile_uri_filter mock.ops (fun _ => "0.000000") mock.Parse).
  - unfold case_constants.
    repeat (constructor; [simpl; intuition discriminate |]). constructor.
  - reflexivity.
Defined.

(** C10.  A [has] call whose second argument renders without a quote
    makes the compiler panic: [formatLikeString] takes element 1 of a
    split that has one element only.  An integer literal is such an
    argument, and so is a double literal (its [%f] text holds no quote). *)
Theorem C10_has_with_unquoted_argument_panics
        (ops : Operators) (Sprintf_f : Z -> string) (Parse : string -> ParseResult) :
  NoDup (case_constants ops) ->
  (forall l r fs fs1 fs2 sl sr,
      makeSQL ops Sprintf_f l fs = Returns (sl, fs1) ->
      makeSQL ops Sprintf_f r fs1 = Returns (sr, fs2) ->
      strings.ContainsByte sr "'" = false ->
      makeSQL ops Sprintf_f (CallExpr (Has ops) [l; r]) fs =
      Panics (IndexOutOfRange 1 1)) /\
  (forall filter name v,
      Parse filter =
      Parsed (CallExpr (Has ops) [IdentExpr name; ConstExpr (Int64Value v)]) ->
      ParseFilter ops Sprintf_f Parse filter {| selects := 0 |} =
      Panics (IndexOutOfRange 1 1)) /\
  (forall filter name bits,
      strings.ContainsByte (Sprintf_f bits) "'" = false ->
      Parse filter =
      Parsed (CallExpr (Has ops) [IdentExpr name; ConstExpr (DoubleValue bits)]) ->
      ParseFilter ops Sprintf_f Parse filter {| selects := 0 |} =
      Panics (IndexOutOfRange 1 1)).
Proof.
  intros Hd. split; [| split].
  - intros l r fs fs1 fs2 sl sr. apply (makeSQL_has_unquoted ops Sprintf_f Hd).
  - intros filter name v HP. unfold ParseFilter. rewrite HP.
    eapply (makeSQL_has_unquoted ops Sprintf_f Hd);
      [reflexivity | reflexivity | apply FormatInt_without_quote].
  - intros filter name bits Hq HP. unfold ParseFilter. rewrite HP.
    eapply (makeSQL_has_unquoted ops Sprintf_f Hd);
      [reflexivity | reflexivity | exact Hq].
Qed.

Lemma C10_has_with_unquoted_argument_panics_witness :
  makeSQL mock.ops (fun _ => "0.000000")
          (CallExpr (Has mock.ops) [IdentExpr "name"; ConstExpr (Int64Value 10)])
          {| selects := 0 |} =
  Panics (IndexOutOfRange 1 1).
Proof.
  eapply (proj1 (C10_has_with_unquoted_argument_panics
                   mock.ops (fun _ => "0.000000") mock.Parse _)).
  - reflexivity.
  - reflexivity.
  - reflexivity.
  Unshelve.
  unfold case_constants.
  repeat (constructor; [simpl; intuition discriminate |]). constructor.
Defined.

(* ================================================================== *)
(** * The pagination cursor: main results *)
(* ================================================================== *)

(** C2.  For every [int64] id and every key that [fernet.DecodeKey]
    accepts (256 bits), decoding a token that [encryptInt64] made of the
    id with that key gives the id back, whatever the default value, as
    long as the reader is inside the one-hour window of the token (the
    window counts from the token's timestamp, which is in whole
    seconds). *)
Theorem C2_decode_of_encode (E : Env) :
  FernetContract E ->
  forall (id : Z) (key : string) (k : fernet.Key) (w w1 w2 : World E)
         (tok : string) (defaultValue : Z),
    is_int64 id ->
    fernet.DecodeKey key = Some k ->
    encryptInt64 E id key w = (inl tok, w1) ->
    within_window E time_Hour w w2 ->
    decryptInt64 E tok key defaultValue w2 = id.
Proof.
  intros contract id key k w w1 w2 tok defaultValue Hid _ Henc Hwin.
  exact (decrypt_of_encrypt E contract id key w w1 w2 tok defaultValue
                            Hid Henc Hwin).
Qed.

Lemma C2_decode_of_encode_witness :
  encryptInt64 mock.env 2 mock.test_key (mock.world 0 [] []) =
  (inl (mock.seal mock.test_key_bytes 0 "2"), mock.world 0 [] []) /\
  decryptInt64 mock.env (mock.seal mock.test_key_bytes 0 "2") mock.test_key 7
               (mock.world (1800 * 10 ^ 9) [] []) = 2.
Proof.
  split.
  - vm_compute. reflexivity.
  - apply (C2_decode_of_encode mock.env mock_keeps_contract 2 mock.test_key
             mock.test_key_bytes (mock.world 0 [] []) (mock.world 0 [] [])
             (mock.world (1800 * 10 ^ 9) [] [])).
    + unfold is_int64. lia.
    + vm_compute. reflexivity.
    + vm_compute. reflexivity.
    + split; vm_compute; discriminate.
Defined.

(** C6.  [decryptInt64] returns an [int64] and nothing else: it has no
    error to return.  It returns the caller's default value for a token
    that is older than the one-hour window, for a token that was sealed
    with another key than the store's, for a token that verification
    refuses for any other reason, for a token whose message is not the
    decimal text of an [int64], and when the store's own key does not
    decode. *)
Theorem C6_decode_falls_back_to_default (E : Env) :
  FernetContract E ->
  forall (key : string) (defaultValue : Z) (w2 : World E),
    (forall msg k w tok w1,
        fernet_EncryptAndSign E msg k w = (inl tok, w1) ->
        token_time E w + time_Hour < time_Now E w2 ->
        decryptInt64 E tok key defaultValue w2 = defaultValue) /\
    (forall msg k w tok w1 k',
        fernet_EncryptAndSign E msg k w = (inl tok, w1) ->
        fernet.DecodeKey key = Some k' ->
        k' <> k ->
        decryptInt64 E tok key defaultValue w2 = defaultValue) /\
    (forall tok k,
        fernet.DecodeKey key = Some k ->
        fernet_VerifyAndDecrypt E tok time_Hour [k] w2 = None ->
        decryptInt64 E tok key defaultValue w2 = defaultValue) /\
    (forall tok k bytes e,
        fernet.DecodeKey key = Some k ->
        fernet_VerifyAndDecrypt E tok time_Hour [k] w2 = Some bytes ->
        strconv.ParseInt bytes = inr e ->
        decryptInt64 E tok key defaultValue w2 = defaultValue) /\
    (fernet.DecodeKey key = None ->
     forall tok, decryptInt64 E tok key defaultValue w2 = defaultValue).
Proof.
  intros contract key defaultValue w2. unfold decryptInt64.
  split; [| split; [| split; [| split]]].
  - intros msg k w tok w1 Henc Hold.
    destruct (fernet.DecodeKey key) as [k' |]; [| reflexivity].
    rewrite (verify_expired E contract msg k w tok w1 time_Hour [k'] w2 Henc);
      [reflexivity | unfold time_Hour; lia | exact Hold].
  - intros msg k w tok w1 k' Henc -> Hk.
    now rewrite (verify_other_key E contract msg k w tok w1 time_Hour k' w2 Henc Hk).
  - intros tok k -> ->. reflexivity.
  - intros tok k bytes e -> -> ->. reflexivity.
  - intros ->. reflexivity.
Qed.

Lemma C6_decode_falls_back_to_default_witness :
  decryptInt64 mock.env (mock.seal "k" 0 "2") mock.test_key 7
               (mock.world (7200 * 10 ^ 9) [] []) = 7.
Proof.
  eapply (proj1 (C6_decode_falls_back_to_default mock.env mock_keeps_contract
                   mock.test_key 7 _)
                "2" "k" (mock.world 0 [] [])).
  - reflexivity.
  - vm_compute. reflexivity.
Defined.

(** C7.  [NewStoreWithCustomConnector] with a pagination key that is not
    empty and that [fernet.DecodeKey] refuses returns the error
    [invalid pagination key; must be 256-bit URL-safe base64] and no
    store, before it touches the database.  The text [INVALID_VALUE] is
    such a key.  A key that [fernet.DecodeKey] accepts has exactly 32
    bytes. *)
Theorem C7_invalid_pagination_key_fails_construction
        (E : Env) (Q : Queries) (connector : Connector E) (w : World E) :
  (forall paginationKey,
      paginationKey <> "" ->
      fernet.DecodeKey paginationKey = None ->
      NewStoreWithCustomConnector E Q connector paginationKey w =
      (inr (errors_New "invalid pagination key; must be 256-bit URL-safe base64"),
       w)) /\
  NewStoreWithCustomConnector E Q connector "INVALID_VALUE" w =
  (inr (errors_New "invalid pagination key; must be 256-bit URL-safe base64"), w) /\
  (forall key k, fernet.DecodeKey key = Some k -> String.length k = 32%nat).
Proof.
  assert (H : forall paginationKey,
             paginationKey <> "" ->
             fernet.DecodeKey paginationKey = None ->
             NewStoreWithCustomConnector E Q connector paginationKey w =
             (inr (errors_New
                     "invalid pagination key; must be 256-bit URL-safe base64"), w)).
  { intros key Hne Hkey. unfold NewStoreWithCustomConnector.
    destruct (String.eqb_spec key ""); [contradiction |].
    rewrite Hkey. reflexivity. }
  split; [exact H |]. split.
  - apply H; [discriminate | vm_compute; reflexivity].
  - exact DecodeKey_256_bits.
Qed.

(* ================================================================== *)
(** * The record store: main results *)
(* ================================================================== *)

(** C8.  For each of [DeleteProject], [DeleteNote] and [DeleteOccurrence]:
    when the statement runs and reports that it affected zero rows, the
    method fails with [NotFound]; when it reports a positive number of
    rows, the method returns no error. *)
Theorem C8_delete_zero_rows_is_not_found
        (E : Env) (Q : Queries) (pg : PgSQLStore E) :
  (forall pID w result w1 count,
      sql_ExecContext E (DB pg) (deleteProject Q)
                      [arg_string (name_FormatProject E pID)] w = (inl result, w1) ->
      RowsAffected result = inl count ->
      (count = 0 ->
       DeleteProject E Q pg pID w =
       (Some (status_Errorf NotFound "Project with name %q does not Exist"
                            [name_FormatProject E pID]), w1)) /\
      (0 < count -> DeleteProject E Q pg pID w = (None, w1))) /\
  (forall pID nID w result w1 count,
      sql_ExecContext E (DB pg) (deleteNote Q)
                      [arg_string pID; arg_string nID] w = (inl result, w1) ->
      RowsAffected result = inl count ->
      (count = 0 ->
       DeleteNote E Q pg pID nID w =
       (Some (status_Errorf NotFound "Note with name %q/%q does not Exist"
                            [pID; nID]), w1)) /\
      (0 < count -> DeleteNote E Q pg pID nID w = (None, w1))) /\
  (forall pID oID w result w1 count,
      sql_ExecContext E (DB pg) (deleteOccurrence Q)
                      [arg_string pID; arg_string oID] w = (inl result, w1) ->
      RowsAffected result = inl count ->
      (count = 0 ->
       DeleteOccurrence E Q pg pID oID w =
       (Some (status_Errorf NotFound "Occurrence with name %q/%q does not Exist"
                            [pID; oID]), w1)) /\
      (0 < count -> DeleteOccurrence E Q pg pID oID w = (None, w1))).
Proof.
  split; [| split].
  - intros pID w result w1 count Hexec Hrows.
    unfold DeleteProject. rewrite Hexec, Hrows.
    split; intros Hc; destruct (Z.eqb_spec count 0); (reflexivity || lia).
  - intros pID nID w result w1 count Hexec Hrows.
    unfold DeleteNote. rewrite Hexec, Hrows.
    split; intros Hc; destruct (Z.eqb_spec count 0); (reflexivity || lia).
  - intros pID oID w result w1 count Hexec Hrows.
    unfold DeleteOccurrence. rewrite Hexec, Hrows.
    split; intros Hc; destruct (Z.eqb_spec count 0); (reflexivity || lia).
Qed.

Lemma C8_delete_zero_rows_is_not_found_witness :
  DeleteOccurrence mock.env mock.queries mock.store "pid" "oid"
    (mock.world 0 [mock.on_exec (inl {| RowsAffected := inl 0 |})] []) =
  (Some (status_Errorf NotFound "Occurrence with name %q/%q does not Exist"
                       ["pid"; "oid"]),
   mock.world 0 [] []).
Proof.
  apply (proj2 (proj2 (C8_delete_zero_rows_is_not_found
                         mock.env mock.queries mock.store))
               "pid" "oid" _ {| RowsAffected := inl 0 |} _ 0).
  - reflexivity.
  - reflexivity.
  - reflexivity.
Defined.

(** C5.  What the three [Create] methods make of the answer of the
    insert.  A [pq.Error] with code [23505] gives [AlreadyExists], a
    [pq.Error] with another code gives [Internal], and every other answer
    gives no error at all: an error of the insert that is not a
    [pq.Error] (a cancelled context, a lost connection) is reported as a
    success, where [Internal] is specified. *)
Theorem C5_create_reports_success_on_other_errors
        (E : Env) (Q : Queries) (pg : PgSQLStore E) :
  (forall pID p w r w1,
      sql_ExecContext E (DB pg) (insertProject Q)
                      [arg_string (name_FormatProject E pID)] w = (r, w1) ->
      (r = inr (pq_Error "23505") ->
       CreateProject E Q pg pID p w =
       (inr (status_Errorf AlreadyExists
                           "Project with name %q already exists" [pID]), w1)) /\
      (forall code, r = inr (pq_Error code) -> code <> "23505" ->
       CreateProject E Q pg pID p w =
       (inr (status_Error Internal "Failed to insert Project in database"), w1)) /\
      (forall e, r = inr e -> (forall code, e <> pq_Error code) ->
       CreateProject E Q pg pID p w = (inl p, w1)) /\
      (forall result, r = inl result ->
       CreateProject E Q pg pID p w = (inl p, w1))) /\
  (forall pID nID uID n w now w1 e w2,
      ptypes_TimestampNow E w = (now, w1) ->
      sql_ExecContext E (DB pg) (insertNote Q)
        [arg_string pID; arg_string nID;
         arg_string (MarshalTextString_Note E
           {| n_Name := name_FormatNote E pID nID; n_CreateTime := Some now;
              n_UpdateTime := n_UpdateTime n; n_rest := n_rest n |})] w1 =
      (inr e, w2) ->
      (forall code, e <> pq_Error code) ->
      CreateNote E Q pg pID nID uID n w =
      (inl {| n_Name := name_FormatNote E pID nID; n_CreateTime := Some now;
              n_UpdateTime := n_UpdateTime n; n_rest := n_rest n |}, w2)) /\
  (forall pID uID o w now w1 id w2 nPID nID e w3,
      ptypes_TimestampNow E w = (now, w1) ->
      uuid_NewRandom E w1 = (inl id, w2) ->
      name_ParseNote E (o_NoteName o) = inl (nPID, nID) ->
      sql_ExecContext E (DB pg) (insertOccurrence Q)
        [arg_string pID; arg_string id; arg_string nPID; arg_string nID;
         arg_string (MarshalTextString_Occurrence E
           {| o_Name := "projects/" ++ pID ++ "/occurrences/" ++ id;
              o_NoteName := o_NoteName o; o_CreateTime := Some now;
              o_UpdateTime := o_UpdateTime o; o_rest := o_rest o |})] w2 =
      (inr e, w3) ->
      (forall code, e <> pq_Error code) ->
      CreateOccurrence E Q pg pID uID o w =
      (inl {| o_Name := "projects/" ++ pID ++ "/occurrences/" ++ id;
              o_NoteName := o_NoteName o; o_CreateTime := Some now;
              o_UpdateTime := o_UpdateTime o; o_rest := o_rest o |}, w3)).
Proof.
  split; [| split].
  - intros pID p w r w1 Hexec. unfold CreateProject. rewrite Hexec.
    repeat split.
    + intros ->. reflexivity.
    + intros code -> Hcode. cbn [as_pq_Error].
      destruct (String.eqb_spec code "23505"); [contradiction | reflexivity].
    + intros e -> He. destruct e as [code | ? | ? | ? ? | ? ? | ? ? ?]; try reflexivity.
      now destruct (He code).
    + intros result ->. reflexivity.
  - intros pID nID uID n w now w1 e w2 Hnow Hexec He.
    unfold CreateNote. rewrite Hnow. cbn [n_Name n_UpdateTime n_rest n_CreateTime].
    rewrite Hexec. destruct e as [code | ? | ? | ? ? | ? ? | ? ? ?]; try reflexivity.
      now destruct (He code).
  - intros pID uID o w now w1 id w2 nPID nID e w3 Hnow Hid Hnote Hexec He.
    unfold CreateOccurrence. rewrite Hnow, Hid.
    cbn [o_Name o_NoteName o_UpdateTime o_rest o_CreateTime].
    rewrite Hnote, Hexec. destruct e as [code | ? | ? | ? ? | ? ? | ? ? ?]; try reflexivity.
      now destruct (He code).
Qed.

Lemma C5_create_reports_success_on_other_errors_witness :
  CreateProject mock.env mock.queries mock.store "p1"
    {| prj_Name := "projects/p1" |}
    (mock.world 0 [mock.on_exec (inr (other_error "context canceled"))] []) =
  (inl {| prj_Name := "projects/p1" |}, mock.world 0 [] []).
Proof.
  destruct (proj1 (C5_create_reports_success_on_other_errors
                     mock.env mock.queries mock.store)
                  "p1" {| prj_Name := "projects/p1" |}
                  (mock.world 0 [mock.on_exec (inr (other_error "context canceled"))] [])
                  (inr (other_error "context canceled"))
                  (mock.world 0 [] []) eq_refl)
    as (_ & _ & H & _).
  apply (H (other_error "context canceled") eq_refl). discriminate.
Defined.

(** C4.  A filter that is not empty and that the parser refuses: the
    compiler returns the empty predicate and no error, but the list
    methods put [ AND ] before it all the same.  The statement that goes
    to the database is the list statement with the text [ AND ] in place
    of the filter, which is not the statement of the listing without a
    filter; when the database refuses it, the method fails with
    [Internal], where the listing without a filter is specified. *)
Theorem C4_failed_parse_leaves_dangling_conjunction
        (E : Env) (Q : Queries) (pg : PgSQLStore E) (filter msg : string) :
  filter <> "" ->
  parser_Parse E filter = ParseError msg ->
  ParseFilter (operators E) (fmt_Sprintf_f E) (parser_Parse E) filter
              {| selects := 0 |} = Returns ("", {| selects := 0 |}) /\
  filterQuery_of E filter = Returns " AND " /\
  (forall t : Template, Sprintf_s t " AND " <> Sprintf_s t "") /\
  (forall pageSize pageToken w e w1,
      sql_QueryContext E (DB pg) (Sprintf_s (listProjects Q) " AND ")
        [arg_int (decryptInt64 E pageToken (paginationKey pg) 0 w);
         arg_int pageSize] w = (inr e, w1) ->
      ListProjects E Q pg filter pageSize pageToken w =
      Returns (inr (status_Error Internal "Failed to list Projects from database"),
               w1)) /\
  (forall pID pageToken pageSize w e w1,
      sql_QueryContext E (DB pg) (Sprintf_s (listOccurrences Q) " AND ")
        [arg_string pID;
         arg_int (decryptInt64 E pageToken (paginationKey pg) 0 w);
         arg_int pageSize] w = (inr e, w1) ->
      ListOccurrences E Q pg pID filter pageToken pageSize w =
      Returns (inr (status_Error Internal
                      "Failed to list Occurrences from database"), w1)) /\
  (forall pID pageToken pageSize w e w1,
      sql_QueryContext E (DB pg) (Sprintf_s (listNotes Q) " AND ")
        [arg_string pID;
         arg_int (decryptInt64 E pageToken (paginationKey pg) 0 w);
         arg_int pageSize] w = (inr e, w1) ->
      ListNotes E Q pg pID filter pageToken pageSize w =
      Returns (inr (status_Error Internal "Failed to list Notes from database"),
               w1)).
Proof.
  intros Hne HP.
  assert (Hcompile :
            ParseFilter (operators E) (fmt_Sprintf_f E) (parser_Parse E) filter
                        {| selects := 0 |} = Returns ("", {| selects := 0 |})).
  { unfold ParseFilter. rewrite HP. reflexivity. }
  assert (Hfq : filterQuery_of E filter = Returns " AND ").
  { unfold filterQuery_of. destruct (String.eqb_spec filter ""); [contradiction |].
    rewrite Hcompile. reflexivity. }
  split; [exact Hcompile |]. split; [exact Hfq |]. split; [| split; [| split]].
  - intros t H. unfold Sprintf_s in H. apply append_inv_head in H.
    apply (f_equal String.length) in H. rewrite length_append in H.
    cbn [String.length append] in H. lia.
  - intros pageSize pageToken w e w1 Hq.
    unfold ListProjects. rewrite Hfq. cbv zeta. rewrite Hq. reflexivity.
  - intros pID pageToken pageSize w e w1 Hq.
    unfold ListOccurrences. rewrite Hfq. cbv zeta. rewrite Hq. reflexivity.
  - intros pID pageToken pageSize w e w1 Hq.
    unfold ListNotes. rewrite Hfq. cbv zeta. rewrite Hq. reflexivity.
Qed.

Lemma C4_failed_parse_leaves_dangling_conjunction_witness :
  ListNotes mock.env mock.queries mock.store "pid" "(" "" 10
    (mock.world 0 [mock.on_query (inr (pq_Error "42601"))] []) =
  Returns (inr (status_Error Internal "Failed to list Notes from database"),
           mock.world 0 [] []).
Proof.
  assert (Hfilter : "(" <> "") by discriminate.
  assert (Hparse : parser_Parse mock.env "(" = ParseError "syntax error")
    by reflexivity.
  destruct (C4_failed_parse_leaves_dangling_conjunction
              mock.env mock.queries mock.store "(" "syntax error" Hfilter Hparse)
    as (_ & _ & _ & _ & _ & H).
  apply (H "pid" "" 10 _ (pq_Error "42601")). reflexivity.
Defined.




(** C9.  A batch of N items of which exactly one is refused as a
    duplicate ([AlreadyExists], the answer of a [Create] method to the
    unique violation [23505] of the insert) while every other item is
    created: [BatchCreateOccurrences] and [BatchCreateNotes] return the
    N-1 created items, in the order of the batch, and an empty list of
    errors. *)
Theorem C9_batch_create_skips_the_duplicate
        (E : Env) (Q : Queries) (pg : PgSQLStore E) (pID uID : string) :
  (forall occs w,
      one_duplicate (outcomes_of (CreateOccurrence E Q pg pID uID) occs w) ->
      exists created w',
        BatchCreateOccurrences E Q pg pID uID occs w = (created, [], w') /\
        created = successes (outcomes_of (CreateOccurrence E Q pg pID uID) occs w) /\
        List.length created = (List.length occs - 1)%nat) /\
  (forall notes w,
      one_duplicate
        (outcomes_of (fun '(nID, n) => CreateNote E Q pg pID nID uID n) notes w) ->
      exists created w',
        BatchCreateNotes E Q pg pID uID notes w = (created, [], w') /\
        created =
        successes
          (outcomes_of (fun '(nID, n) => CreateNote E Q pg pID nID uID n) notes w) /\
        List.length created = (List.length notes - 1)%nat) /\
  (forall nID n w now w1 w2,
      ptypes_TimestampNow E w = (now, w1) ->
      sql_ExecContext E (DB pg) (insertNote Q)
        [arg_string pID; arg_string nID;
         arg_string (MarshalTextString_Note E
           {| n_Name := name_FormatNote E pID nID; n_CreateTime := Some now;
              n_UpdateTime := n_UpdateTime n; n_rest := n_rest n |})] w1 =
      (inr (pq_Error "23505"), w2) ->
      exists e, CreateNote E Q pg pID nID uID n w = (inr e, w2) /\
                is_AlreadyExists e) /\
  (forall o w now w1 id w2 nPID nID w3,
      ptypes_TimestampNow E w = (now, w1) ->
      uuid_NewRandom E w1 = (inl id, w2) ->
      name_ParseNote E (o_NoteName o) = inl (nPID, nID) ->
      sql_ExecContext E (DB pg) (insertOccurrence Q)
        [arg_string pID; arg_string id; arg_string nPID; arg_string nID;
         arg_string (MarshalTextString_Occurrence E
           {| o_Name := "projects/" ++ pID ++ "/occurrences/" ++ id;
              o_NoteName := o_NoteName o; o_CreateTime := Some now;
              o_UpdateTime := o_UpdateTime o; o_rest := o_rest o |})] w2 =
      (inr (pq_Error "23505"), w3) ->
      exists e, CreateOccurrence E Q pg pID uID o w = (inr e, w3) /\
                is_AlreadyExists e).
Proof.
  split; [| split; [| split]].
  - intros occs w Hdup. unfold BatchCreateOccurrences.
    now apply batch_loop_one_duplicate.
  - intros notes w Hdup. unfold BatchCreateNotes.
    now apply batch_loop_one_duplicate.
  - intros nID n w now w1 w2 Hnow Hexec. unfold CreateNote.
    rewrite Hnow. cbn [n_Name n_UpdateTime n_rest n_CreateTime].
    rewrite Hexec. cbn [as_pq_Error].
    change (String.eqb "23505" "23505") with true. cbv iota.
    eexists. split; [reflexivity | exact I].
  - intros o w now w1 id w2 nPID nID w3 Hnow Hid Hnote Hexec.
    unfold CreateOccurrence. rewrite Hnow, Hid.
    cbn [o_Name o_NoteName o_UpdateTime o_rest o_CreateTime].
    rewrite Hnote, Hexec. cbn [as_pq_Error].
    change (String.eqb "23505" "23505") with true. cbv iota.
    eexists. split; [reflexivity | exact I].
Qed.

Lemma C9_batch_create_skips_the_duplicate_witness :
  exists created w',
    BatchCreateNotes mock.env mock.queries mock.store "p" "u"
      [("n1", {| n_Name := ""; n_CreateTime := None; n_UpdateTime := None;
                 n_rest := "first" |});
       ("n2", {| n_Name := ""; n_CreateTime := None; n_UpdateTime := None;
                 n_rest := "second" |});
       ("n3", {| n_Name := ""; n_CreateTime := None; n_UpdateTime := None;
                 n_rest := "third" |})]
      (mock.world 0
         [mock.on_exec (inl {| RowsAffected := inl 1 |});
          mock.on_exec (inr (pq_Error "23505"));
          mock.on_exec (inl {| RowsAffected := inl 1 |})] []) =
    (created, [], w') /\
    List.length created = 2%nat.
Proof.
  destruct (proj1 (proj2 (C9_batch_create_skips_the_duplicate
                            mock.env mock.queries mock.store "p" "u"))
                  [("n1", {| n_Name := ""; n_CreateTime := None;
                             n_UpdateTime := None; n_rest := "first" |});
                   ("n2", {| n_Name := ""; n_CreateTime := None;
                             n_UpdateTime := None; n_rest := "second" |});
                   ("n3", {| n_Name := ""; n_CreateTime := None;
                             n_UpdateTime := None; n_rest := "third" |})]
                  (mock.world 0
                     [mock.on_exec (inl {| RowsAffected := inl 1 |});
                      mock.on_exec (inr (pq_Error "23505"));
                      mock.on_exec (inl {| RowsAffected := inl 1 |})] []))
    as (created & w' & Hrun & _ & Hlen).
  - exists [{| n_Name := "projects/p/notes/n1"; n_CreateTime := Some 0;
               n_UpdateTime := None; n_rest := "first" |}],
           (status_Errorf AlreadyExists "Note with name %q already exists"
                          ["projects/p/notes/n2"]),
           [{| n_Name := "projects/p/notes/n3"; n_CreateTime := Some 0;
               n_UpdateTime := None; n_rest := "third" |}].
    split; [reflexivity | exact I].
  - exists created, w'. split; [exact Hrun | exact Hlen].
Defined.

(* ================================================================== *)
(** * The filter compiler: further results *)
(* ================================================================== *)

(** Induction over a tree and the arguments of its calls. *)
Lemma Expr_nested_ind (P : Expr -> Prop) :
  (forall f args, Forall P args -> P (CallExpr f args)) ->
  (forall operand field, P operand -> P (SelectExpr operand field)) ->
  (forall name, P (IdentExpr name)) ->
  (forall c, P (ConstExpr c)) ->
  P OtherExpr ->
  forall e, P e.
Proof.
  intros Hcall Hselect Hident Hconst Hother.
  fix IH 1. intros [f args | operand field | name | c |].
  - apply Hcall. revert args. fix IHargs 1. intros [|a args].
    + constructor.
    + constructor; [apply IH | apply IHargs].
  - apply Hselect, IH.
  - apply Hident.
  - apply Hconst.
  - exact Hother.
Qed.

Lemma sqlOp_of_known (ops : Operators) (f : string) :
  In f (case_constants ops) -> sqlOp_of ops f <> "".
Proof.
  unfold case_constants, sqlOp_of. intros Hin.
  repeat (match goal with
          | |- context [String.eqb ?a ?b] =>
              destruct (String.eqb_spec a b) as [? | ?]; [discriminate |]
          end).
  simpl in Hin. intuition congruence.
Qed.

Lemma sqlOp_of_unknown (ops : Operators) (f : string) :
  ~ In f (case_constants ops) -> sqlOp_of ops f = "".
Proof.
  unfold case_constants, sqlOp_of. intros Hin.
  repeat (match goal with
          | |- context [String.eqb ?a ?b] =>
              destruct (String.eqb_spec a b) as [? | ?];
              [exfalso; apply Hin; simpl; intuition congruence |]
          end).
  reflexivity.
Qed.

(** Only [has] is rendered as [like]. *)
Lemma sqlOp_of_like (ops : Operators) (f : string) :
  sqlOp_of ops f = "like" -> f = Has ops.
Proof.
  unfold sqlOp_of.
  repeat match goal with
         | |- context [String.eqb f ?c] => destruct (String.eqb_spec f c)
         end; try discriminate.
  intros _. assumption.
Qed.

Section CompilerInvariants.

Variable ops : Operators.
Variable Sprintf_f : Z -> string.

Local Abbreviation compile := (makeSQL ops Sprintf_f).

(** The loop over the arguments keeps the counter when every argument
    does, and gives one text for each argument. *)
Lemma range_append_keeps (args : list Expr) :
  Forall (fun e => forall fs s fs',
              compile e fs = Returns (s, fs') -> fs' = fs) args ->
  forall fs names fs',
    range_append compile args fs = Returns (names, fs') ->
    fs' = fs /\ List.length names = List.length args.
Proof.
  induction 1 as [|a args Ha _ IH]; intros fs names fs' H.
  - injection H as <- <-. split; reflexivity.
  - cbn [range_append] in H. unfold fs_bind in H.
    destruct (compile a fs) as [[s fs1] | p] eqn:Ea; [| discriminate].
    apply Ha in Ea. subst fs1.
    fold (range_append compile args) in H.
    destruct (range_append compile args fs) as [[rest fs2] | p] eqn:Er;
      [| discriminate].
    apply IH in Er. destruct Er as [-> Hlen].
    injection H as <- <-. split; [reflexivity | simpl; now rewrite Hlen].
Qed.

(** The steps of [sqlFromCall] after the loop do not touch the counter. *)
Lemma sqlFromCall_tail_keeps (f : string) (names : list string)
      (fs : FilterSQL) (s : string) (fs' : FilterSQL) :
  (if String.eqb (sqlOp_of ops f) "[" then
     (a0 <- at_index names 0 ;;
      a1 <- at_index names 1 ;;
      fs_ret (a0 ++ "[" ++ a1 ++ "]"))%fs
   else if String.eqb (sqlOp_of ops f) "like" then
     (a1 <- at_index names 1 ;;
      pat <- formatLikeString a1 ;;
      a0 <- at_index names 0 ;;
      fs_ret ("(" ++ a0 ++ " " ++ sqlOp_of ops f ++ " " ++ pat ++ ")"))%fs
   else if negb (String.eqb (sqlOp_of ops f) "") then
     (a0 <- at_index names 0 ;;
      a1 <- at_index names 1 ;;
      fs_ret ("(" ++ a0 ++ " " ++ sqlOp_of ops f ++ " " ++ a1 ++ ")"))%fs
   else
     fs_ret (f ++ "(" ++ strings.Join names ", " ++ ")")) fs =
  Returns (s, fs') ->
  fs' = fs.
Proof.
  intros H. run_fs_in H.
  repeat match type of H with
         | context [if ?b then _ else _] => destruct b
         | context [match nth_error ?l ?i with _ => _ end] =>
             destruct (nth_error l i)
         | context [match ?l with [] => _ | _ :: _ => _ end] => destruct l
         end;
    first [discriminate H | now inversion H].
Qed.

(** [makeSQL] leaves the selection counter as it found it, on every tree
    and from every value of the counter. *)
Lemma makeSQL_keeps_selects (e : Expr) :
  forall fs s fs', compile e fs = Returns (s, fs') -> fs' = fs.
Proof.
  induction e as [f args IH | operand field IH | name | c |]
    using Expr_nested_ind; intros fs s fs' H.
  - rewrite makeSQL_call in H. unfold sqlFromCall in H.
    unfold fs_bind at 1 in H.
    destruct (range_append compile args fs) as [[names fs1] | p] eqn:Er;
      [| discriminate].
    apply (range_append_keeps args IH) in Er. destruct Er as [-> _].
    now apply sqlFromCall_tail_keeps in H.
  - rewrite makeSQL_select in H. destruct fs as [n]. run_fs_in H.
    destruct (compile operand {| selects := n + 1 |}) as [[o fs1] | p] eqn:Eo;
      [| discriminate].
    apply IH in Eo. subst fs1. run_fs_in H.
    replace (n + 1 - 1) with n in H by lia.
    revert H. destruct (n =? 0); intros H; cbv beta in H; now inversion H.
  - rewrite makeSQL_ident in H. destruct fs as [n]. run_fs_in H.
    revert H. destruct (0 <? n); intros H; cbv beta in H; now inversion H.
  - now inversion H.
  - now inversion H.
Qed.

End CompilerInvariants.

Section CompilerTotality.

Variable ops : Operators.
Variable Sprintf_f : Z -> string.

Local Abbreviation compile := (makeSQL ops Sprintf_f).

(** The loop over the arguments returns when every argument does. *)
Lemma range_append_returns (args : list Expr) :
  Forall (fun e => forall fs, exists s, compile e fs = Returns (s, fs)) args ->
  forall fs,
  exists names,
    range_append compile args fs = Returns (names, fs) /\
    List.length names = List.length args.
Proof.
  induction 1 as [|a args Ha _ IH]; intros fs.
  - exists []. split; reflexivity.
  - destruct (Ha fs) as [s Hs]. destruct (IH fs) as (names & Hn & Hlen).
    exists (s :: names). cbn [range_append]. unfold fs_bind. rewrite Hs.
    fold (range_append compile args). rewrite Hn.
    split; [reflexivity | simpl; now rewrite Hlen].
Qed.

Lemma operands_present_returns (e : Expr) :
  operands_present ops e = true ->
  forall fs, exists s, compile e fs = Returns (s, fs).
Proof.
  induction e as [f args IH | operand field IH | name | c |]
    using Expr_nested_ind; intros Hok fs.
  - cbn [operands_present] in Hok. apply andb_true_iff in Hok.
    destruct Hok as [Hop Hargs].
    assert (Hall : Forall (fun e => forall fs,
                               exists s, compile e fs = Returns (s, fs)) args).
    { rewrite forallb_forall in Hargs. rewrite Forall_forall in IH |- *.
      intros a Ha. apply (IH a Ha), Hargs, Ha. }
    destruct (range_append_returns args Hall fs) as (names & Hn & Hlen).
    rewrite makeSQL_call. unfold sqlFromCall. unfold fs_bind at 1. rewrite Hn.
    destruct (String.eqb (sqlOp_of ops f) "") eqn:Eempty.
    + apply String.eqb_eq in Eempty. rewrite Eempty.
      eexists. reflexivity.
    + cbn [orb] in Hop. apply andb_true_iff in Hop. destruct Hop as [Htwo Hlike].
      apply Nat.leb_le in Htwo. apply negb_true_iff in Hlike.
      rewrite Hlike. cbn [negb].
      destruct names as [|a0 [|a1 names]]; try (simpl in Hlen; lia).
      destruct (String.eqb (sqlOp_of ops f) "["); eexists; reflexivity.
  - cbn [operands_present] in Hok. destruct fs as [n].
    destruct (IH Hok {| selects := n + 1 |}) as [o Ho].
    rewrite makeSQL_select. run_fs. rewrite Ho. run_fs.
    replace (n + 1 - 1) with n by lia.
    destruct (n =? 0); eexists; reflexivity.
  - destruct fs as [n]. rewrite makeSQL_ident. run_fs.
    destruct (0 <? n); eexists; reflexivity.
  - eexists. reflexivity.
  - eexists. reflexivity.
Qed.

End CompilerTotality.

Lemma hd_Split_before_separator (v t : string) (sep : ascii) :
  hd "" (strings.Split (v ++ String sep t) sep) = hd "" (strings.Split v sep).
Proof.
  induction v as [|c r IH]; cbn [append strings.Split].
  - now rewrite Ascii.eqb_refl.
  - destruct (Ascii.eqb c sep); [reflexivity |].
    pose proof (Split_never_empty (r ++ String sep t) sep) as H1.
    pose proof (Split_never_empty r sep) as H2.
    destruct (strings.Split (r ++ String sep t) sep) as [|h1 t1]; [congruence |].
    destruct (strings.Split r sep) as [|h2 t2]; [congruence |].
    cbn [hd] in *. now rewrite IH.
Qed.

(** X1.  [makeSQL] restores the selection counter: whenever it returns,
    on any tree and from any value of the counter, the [FilterSQL] is as
    it was before the call, so one [FilterSQL] can compile one filter
    after the other. *)
Theorem makeSQL_restores_selects
        (ops : Operators) (Sprintf_f : Z -> string) (e : Expr)
        (fs : FilterSQL) (s : string) (fs' : FilterSQL) :
  makeSQL ops Sprintf_f e fs = Returns (s, fs') -> fs' = fs.
Proof.
  apply makeSQL_keeps_selects.
Qed.

Lemma makeSQL_restores_selects_witness :
  makeSQL mock.ops (fun _ => "0.000000") (uri_filter_tree mock.ops)
          {| selects := 3 |} =
  Returns ("((resource.uri = 'a.rpm') OR (resource.uri = 'https://a.com/b/c/a.rpm'))",
           {| selects := 3 |}) /\
  {| selects := 3 |} = {| selects := 3 |}.
Proof.
  split; [reflexivity |].
  apply (makeSQL_restores_selects mock.ops (fun _ => "0.000000")
           (uri_filter_tree mock.ops) {| selects := 3 |}
           "((resource.uri = 'a.rpm') OR (resource.uri = 'https://a.com/b/c/a.rpm'))").
  reflexivity.
Defined.

(** X2.  [makeSQL] returns, without a panic and with the counter as it
    was, on every tree in which each call of an operator of the [switch]
    has at least two arguments and none is a [has]; selections,
    identifiers, constants, nodes of other kinds and calls of other
    functions never make it panic. *)
Theorem makeSQL_returns_when_operands_present
        (ops : Operators) (Sprintf_f : Z -> string) (e : Expr) :
  operands_present ops e = true ->
  forall fs, exists s, makeSQL ops Sprintf_f e fs = Returns (s, fs).
Proof.
  apply operands_present_returns.
Qed.

Lemma makeSQL_returns_when_operands_present_witness :
  exists s,
    makeSQL mock.ops (fun _ => "0.000000") (uri_filter_tree mock.ops)
            {| selects := 0 |} = Returns (s, {| selects := 0 |}).
Proof.
  apply (makeSQL_returns_when_operands_present mock.ops (fun _ => "0.000000")
           (uri_filter_tree mock.ops)).
  reflexivity.
Defined.

(** X3.  A call of an operator of the [switch] with fewer than two
    arguments makes [makeSQL] panic.  With no argument, a comparison,
    [AND], [OR] or the index operator panics on element 0 of the empty
    slice, and [has], whose call of [formatLikeString] comes first,
    panics on element 1 of it; with one argument every operator panics
    on element 1. *)
Theorem makeSQL_operator_needs_two_operands
        (ops : Operators) (Sprintf_f : Z -> string) (f : string) (fs : FilterSQL) :
  NoDup (case_constants ops) ->
  In f (case_constants ops) ->
  (f <> Has ops ->
   makeSQL ops Sprintf_f (CallExpr f []) fs = Panics (IndexOutOfRange 0 0)) /\
  (f = Has ops ->
   makeSQL ops Sprintf_f (CallExpr f []) fs = Panics (IndexOutOfRange 1 0)) /\
  (forall a s fs1,
      makeSQL ops Sprintf_f a fs = Returns (s, fs1) ->
      makeSQL ops Sprintf_f (CallExpr f [a]) fs = Panics (IndexOutOfRange 1 1)).
Proof.
  intros Hd Hin. pose proof (sqlOp_of_known ops f Hin) as Hop.
  apply String.eqb_neq in Hop. split; [| split].
  - intros Hf. rewrite makeSQL_call. unfold sqlFromCall. cbn [range_append].
    run_fs. rewrite Hop.
    destruct (String.eqb (sqlOp_of ops f) "["); [reflexivity |].
    destruct (String.eqb_spec (sqlOp_of ops f) "like") as [Hlike |];
      [| reflexivity].
    now contradiction (Hf (sqlOp_of_like ops f Hlike)).
  - intros ->. rewrite makeSQL_call. unfold sqlFromCall. cbn [range_append].
    run_fs. rewrite (sqlOp_of_Has ops Hd). reflexivity.
  - intros a s fs1 Ha. rewrite makeSQL_call. unfold sqlFromCall.
    cbn [range_append]. unfold fs_bind at 1 2. rewrite Ha. run_fs. rewrite Hop.
    destruct (String.eqb (sqlOp_of ops f) "["); [reflexivity |].
    destruct (String.eqb (sqlOp_of ops f) "like"); reflexivity.
Qed.

Lemma makeSQL_operator_needs_two_operands_witness :
  makeSQL mock.ops (fun _ => "0.000000")
          (CallExpr (Has mock.ops) []) {| selects := 0 |} =
  Panics (IndexOutOfRange 1 0) /\
  makeSQL mock.ops (fun _ => "0.000000")
          (CallExpr (Has mock.ops) [IdentExpr "a"]) {| selects := 0 |} =
  Panics (IndexOutOfRange 1 1).
Proof.
  destruct (makeSQL_operator_needs_two_operands
              mock.ops (fun _ => "0.000000") (Has mock.ops) {| selects := 0 |}
              mock_operators_distinct ltac:(simpl; tauto))
    as (_ & Hnone & Hone).
  split.
  - apply Hnone. reflexivity.
  - apply (Hone (IdentExpr "a") "data->>'a'" {| selects := 0 |}). reflexivity.
Defined.

(** X4.  A [has] call whose second argument is a string literal never
    panics on it, and the pattern holds the literal up to its first
    quote only: the rest of the literal is dropped. *)
Theorem makeSQL_has_string_literal
        (ops : Operators) (Sprintf_f : Z -> string)
        (l : Expr) (v : string) (fs fs1 : FilterSQL) (sl : string) :
  NoDup (case_constants ops) ->
  makeSQL ops Sprintf_f l fs = Returns (sl, fs1) ->
  makeSQL ops Sprintf_f (CallExpr (Has ops) [l; ConstExpr (StringValue v)]) fs =
  Returns ("(" ++ sl ++ " " ++ "like" ++ " " ++
           ("'%" ++ up_to_quote v ++ "%'") ++ ")", fs1).
Proof.
  intros Hd Hl. rewrite makeSQL_call. unfold sqlFromCall, range_append, fs_bind.
  rewrite Hl, (sqlOp_of_Has ops Hd).
  change (String.eqb "like" "[") with false.
  change (String.eqb "like" "like") with true.
  cbv beta iota delta [makeSQL getConstantValue fs_ret at_index formatLikeString
                       fs_bind nth_error].
  change ("'" ++ v ++ "'") with (String "'" (v ++ String "'" "")).
  cbn [strings.Split]. change (Ascii.eqb "'" "'") with true. cbv iota.
  pose proof (hd_Split_before_separator v "" "'") as Hhd.
  pose proof (Split_never_empty (v ++ String "'" "") "'") as Hne.
  destruct (strings.Split (v ++ String "'" "") "'") as [|h t]; [congruence |].
  cbn [hd] in Hhd. unfold up_to_quote. rewrite <- Hhd. reflexivity.
Qed.

Lemma makeSQL_has_string_literal_witness :
  makeSQL mock.ops (fun _ => "0.000000")
          (CallExpr (Has mock.ops) [IdentExpr "name"; ConstExpr (StringValue "it's")])
          {| selects := 0 |} =
  Returns ("(data->>'name' like '%it%')", {| selects := 0 |}).
Proof.
  apply (makeSQL_has_string_literal mock.ops (fun _ => "0.000000")
           (IdentExpr "name") "it's" {| selects := 0 |} {| selects := 0 |}
           "data->>'name'").
  - exact mock_operators_distinct.
  - reflexivity.
Defined.

(** X5.  A call of a function that is none of the operators of the
    [switch] is passed on as it is: the name of the function, then the
    texts of its arguments in parentheses, separated by a comma and a
    space.  The compiler refuses no function name. *)
Theorem makeSQL_unknown_function_passes_through
        (ops : Operators) (Sprintf_f : Z -> string)
        (f : string) (args : list Expr) (fs fs1 : FilterSQL) (names : list string) :
  ~ In f (case_constants ops) ->
  range_append (makeSQL ops Sprintf_f) args fs = Returns (names, fs1) ->
  makeSQL ops Sprintf_f (CallExpr f args) fs =
  Returns (f ++ "(" ++ strings.Join names ", " ++ ")", fs1).
Proof.
  intros Hf Hargs. rewrite makeSQL_call. unfold sqlFromCall. unfold fs_bind at 1.
  rewrite Hargs, (sqlOp_of_unknown ops f Hf). reflexivity.
Qed.

Lemma makeSQL_unknown_function_passes_through_witness :
  makeSQL mock.ops (fun _ => "0.000000")
          (CallExpr "pg_sleep" [ConstExpr (Int64Value 10)]) {| selects := 0 |} =
  Returns ("pg_sleep(10)", {| selects := 0 |}).
Proof.
  apply (makeSQL_unknown_function_passes_through
           mock.ops (fun _ => "0.000000") "pg_sleep"
           [ConstExpr (Int64Value 10)] {| selects := 0 |} {| selects := 0 |} ["10"]).
  - simpl. intuition discriminate.
  - reflexivity.
Defined.

(** X22.  A comparison or a conjunction with a string literal on the
    right renders the literal between single quotes and copies it as it
    is: a quote inside the literal is neither doubled nor escaped, so
    the literal can end the quoted text early. *)
Theorem makeSQL_copies_string_literals
        (ops : Operators) (Sprintf_f : Z -> string)
        (f op : string) (l : Expr) (v : string)
        (fs fs1 : FilterSQL) (sl : string) :
  NoDup (case_constants ops) ->
  In (f, op) (binary_operators ops) ->
  makeSQL ops Sprintf_f l fs = Returns (sl, fs1) ->
  makeSQL ops Sprintf_f (CallExpr f [l; ConstExpr (StringValue v)]) fs =
  Returns ("(" ++ sl ++ " " ++ op ++ " " ++ ("'" ++ v ++ "'") ++ ")", fs1).
Proof.
  intros Hd Hin Hl.
  apply (makeSQL_binary ops Sprintf_f Hd f op l (ConstExpr (StringValue v))
                        fs fs1 fs1 sl ("'" ++ v ++ "'") Hin Hl).
  reflexivity.
Qed.

Lemma makeSQL_copies_string_literals_witness :
  makeSQL mock.ops (fun _ => "0.000000")
          (CallExpr (Equals mock.ops)
             [IdentExpr "name"; ConstExpr (StringValue "a' OR 'b'='b")])
          {| selects := 0 |} =
  Returns ("(data->>'name' = 'a' OR 'b'='b')", {| selects := 0 |}).
Proof.
  apply (makeSQL_copies_string_literals
           mock.ops (fun _ => "0.000000") (Equals mock.ops) "="
           (IdentExpr "name") "a' OR 'b'='b"
           {| selects := 0 |} {| selects := 0 |} "data->>'name'").
  - exact mock_operators_distinct.
  - simpl. tauto.
  - reflexivity.
Defined.



(* ================================================================== *)
(** * The construction of the store: further results *)
(* ================================================================== *)

(** What a successful construction went through. *)
Lemma NewStore_inversion (E : Env) (Q : Queries) (connector : Connector E)
      (key : string) (w : World E) (pg : PgSQLStore E) (w' : World E) :
  NewStoreWithCustomConnector E Q connector key w = (inl pg, w') ->
  DB pg = connector /\
  (key <> "" ->
   paginationKey pg = key /\ exists k, fernet.DecodeKey key = Some k) /\
  (key = "" ->
   exists k w1, fernet_Generate E w = (inl k, w1) /\
                paginationKey pg = fernet_Encode E k) /\
  exists w1 w2 result,
    sql_Ping E connector w1 = (None, w2) /\
    sql_ExecContext E connector (createTables Q) [] w2 = (inl result, w').
Proof.
  unfold NewStoreWithCustomConnector. intros H.
  destruct (String.eqb_spec key "") as [-> | Hne].
  - destruct (fernet_Generate E w) as [[k | e] w1] eqn:Hgen; [| discriminate].
    destruct (sql_Ping E connector w1) as [[e |] w2] eqn:Hping; [discriminate |].
    destruct (sql_ExecContext E connector (createTables Q) [] w2)
      as [[result | e] w3] eqn:Hexec; [| discriminate].
    injection H as <- <-. cbn [DB paginationKey].
    split; [reflexivity |]. split; [intros C; now contradiction C |].
    split; [intros _; now exists k, w1 |]. now exists w1, w2, result.
  - destruct (fernet.DecodeKey key) as [k |] eqn:Hkey; [| discriminate].
    destruct (sql_Ping E connector w) as [[e |] w2] eqn:Hping; [discriminate |].
    destruct (sql_ExecContext E connector (createTables Q) [] w2)
      as [[result | e] w3] eqn:Hexec; [| discriminate].
    injection H as <- <-. cbn [DB paginationKey].
    split; [reflexivity |]. split; [intros _; split; [reflexivity | now exists k] |].
    split; [intros C; now contradiction Hne |]. now exists w, w2, result.
Qed.

(** X7.  A store that [NewStoreWithCustomConnector] returns stands on the
    connector it was given, after a ping that answered and a
    [createTables] that ran.  Given a key, its pagination key is that
    key, unchanged, and [fernet.DecodeKey] accepts it (32 bytes); given
    no key, its pagination key is the encoding of a key that
    [Generate] made in this call. *)
Theorem new_store_holds_a_checked_key
        (E : Env) (Q : Queries) (connector : Connector E)
        (key : string) (w : World E) (pg : PgSQLStore E) (w' : World E) :
  NewStoreWithCustomConnector E Q connector key w = (inl pg, w') ->
  DB pg = connector /\
  (key <> "" ->
   paginationKey pg = key /\
   exists k, fernet.DecodeKey (paginationKey pg) = Some k /\
             String.length k = 32%nat) /\
  (key = "" ->
   exists k w1, fernet_Generate E w = (inl k, w1) /\
                paginationKey pg = fernet_Encode E k) /\
  exists w1 w2 result,
    sql_Ping E connector w1 = (None, w2) /\
    sql_ExecContext E connector (createTables Q) [] w2 = (inl result, w').
Proof.
  intros H. destruct (NewStore_inversion E Q connector key w pg w' H)
    as (Hdb & Hkey & Hgen & Hrun).
  split; [exact Hdb |]. split; [| split; [exact Hgen | exact Hrun]].
  intros Hne. destruct (Hkey Hne) as (Heq & k & Hk).
  split; [exact Heq |]. exists k. rewrite Heq.
  split; [exact Hk | exact (DecodeKey_256_bits key k Hk)].
Qed.

Lemma new_store_holds_a_checked_key_witness :
  NewStoreWithCustomConnector mock.env mock.queries tt mock.test_key
    (mock.world 0 [mock.on_ping None;
                   mock.on_exec (inl {| RowsAffected := inl 0 |})] []) =
  (inl mock.store, mock.world 0 [] []) /\
  paginationKey mock.store = mock.test_key /\
  exists k, fernet.DecodeKey (paginationKey mock.store) = Some k /\
            String.length k = 32%nat.
Proof.
  split; [reflexivity |].
  destruct (new_store_holds_a_checked_key
              mock.env mock.queries tt mock.test_key
              (mock.world 0 [mock.on_ping None;
                             mock.on_exec (inl {| RowsAffected := inl 0 |})] [])
              mock.store (mock.world 0 [] []))
    as (_ & Hkey & _).
  - reflexivity.
  - apply Hkey. discriminate.
Defined.

(** X8.  The two ways in which the database makes the construction fail.
    When the ping fails, [createTables] is not run and the database is
    left open: the world is the one after the ping.  When [createTables]
    fails, the database is closed before the error is returned.  Both
    hold for every key that passed the check. *)
Theorem new_store_closes_after_failed_tables_only
        (E : Env) (Q : Queries) (connector : Connector E)
        (key : string) (k : fernet.Key) (w : World E) :
  key <> "" ->
  fernet.DecodeKey key = Some k ->
  (forall err w2,
      sql_Ping E connector w = (Some err, w2) ->
      NewStoreWithCustomConnector E Q connector key w =
      (inr (fmt_Errorf "failed to ping the database server, err: %v" err), w2)) /\
  (forall w2 err w3,
      sql_Ping E connector w = (None, w2) ->
      sql_ExecContext E connector (createTables Q) [] w2 = (inr err, w3) ->
      NewStoreWithCustomConnector E Q connector key w =
      (inr (fmt_Errorf "failed to create tables, err: %v" err),
       sql_Close E connector w3)).
Proof.
  intros Hne Hkey. unfold NewStoreWithCustomConnector.
  destruct (String.eqb_spec key ""); [contradiction |]. rewrite Hkey.
  split.
  - intros err w2 ->. reflexivity.
  - intros w2 err w3 -> ->. reflexivity.
Qed.

Lemma new_store_closes_after_failed_tables_only_witness :
  NewStoreWithCustomConnector mock.env mock.queries tt mock.test_key
    (mock.world 0 [mock.on_ping (Some (other_error "connection refused"))] []) =
  (inr (fmt_Errorf "failed to ping the database server, err: %v"
                   (other_error "connection refused")),
   mock.world 0 [] []).
Proof.
  apply (proj1 (new_store_closes_after_failed_tables_only
                  mock.env mock.queries tt mock.test_key mock.test_key_bytes
                  (mock.world 0 [mock.on_ping
                                   (Some (other_error "connection refused"))] [])
                  ltac:(discriminate) ltac:(vm_compute; reflexivity))).
  reflexivity.
Defined.

(** X9.  Two stores that were constructed with the same key, on any two
    connectors, read each other's page tokens: a token that one of them
    makes of an [int64] id decodes to that id in the other, inside the
    one-hour window. *)
Theorem stores_with_one_key_share_tokens (E : Env) (Q : Queries) :
  FernetContract E ->
  forall (c1 c2 : Connector E) (key : string)
         (wa wa' wb wb' : World E) (pg1 pg2 : PgSQLStore E)
         (id : Z) (w w1 w2 : World E) (tok : string) (defaultValue : Z),
    key <> "" ->
    NewStoreWithCustomConnector E Q c1 key wa = (inl pg1, wa') ->
    NewStoreWithCustomConnector E Q c2 key wb = (inl pg2, wb') ->
    is_int64 id ->
    encryptInt64 E id (paginationKey pg1) w = (inl tok, w1) ->
    within_window E time_Hour w w2 ->
    decryptInt64 E tok (paginationKey pg2) defaultValue w2 = id.
Proof.
  intros contract c1 c2 key wa wa' wb wb' pg1 pg2 id w w1 w2 tok d
         Hne H1 H2 Hid Henc Hwin.
  destruct (NewStore_inversion E Q c1 key wa pg1 wa' H1) as (_ & K1 & _).
  destruct (NewStore_inversion E Q c2 key wb pg2 wb' H2) as (_ & K2 & _).
  destruct (K1 Hne) as [E1 _]. destruct (K2 Hne) as [E2 _].
  rewrite E1 in Henc. rewrite E2.
  exact (decrypt_of_encrypt E contract id key w w1 w2 tok d Hid Henc Hwin).
Qed.

Lemma stores_with_one_key_share_tokens_witness :
  decryptInt64 mock.env (mock.seal mock.test_key_bytes 0 "41")
               (paginationKey mock.store) 0
               (mock.world (60 * 10 ^ 9) [] []) = 41.
Proof.
  apply (stores_with_one_key_share_tokens
           mock.env mock.queries mock_keeps_contract tt tt mock.test_key
           (mock.world 0 [mock.on_ping None;
                          mock.on_exec (inl {| RowsAffected := inl 0 |})] [])
           (mock.world 0 [] [])
           (mock.world 5 [mock.on_ping None;
                          mock.on_exec (inl {| RowsAffected := inl 1 |})] [])
           (mock.world 5 [] [])
           mock.store mock.store 41
           (mock.world 0 [] []) (mock.world 0 [] [])
           (mock.world (60 * 10 ^ 9) [] [])).
  - discriminate.
  - reflexivity.
  - reflexivity.
  - unfold is_int64. lia.
  - vm_compute. reflexivity.
  - split; vm_compute; discriminate.
Defined.

(* ================================================================== *)
(** * The list methods: further results *)
(* ================================================================== *)

Section CursorFallback.

Variable E : Env.
Hypothesis contract : FernetContract E.

Lemma time_Hour_positive : 0 < time_Hour.
Proof.
  unfold time_Hour. lia.
Qed.

(** A stale token decodes to the default value. *)
Lemma decrypt_stale (key tok : string) (d : Z) (w : World E) :
  stale_token E key tok w -> decryptInt64 E tok key d w = d.
Proof.
  intros (msg & k & w0 & w1 & Hseal & Hwhy). unfold decryptInt64.
  destruct (fernet.DecodeKey key) as [k' |] eqn:Hkey; [| reflexivity].
  destruct Hwhy as [Hold | (k2 & Hk2 & Hother)].
  - now rewrite (verify_expired E contract _ _ _ _ _ _ [k'] _ Hseal
                                time_Hour_positive Hold).
  - injection Hk2 as <-.
    now rewrite (verify_other_key E contract _ _ _ _ _ time_Hour k' w Hseal Hother).
Qed.

(** So does the empty token, where [fernet] refuses it. *)
Lemma decrypt_empty (key : string) (d : Z) (w : World E) :
  (forall ks, fernet_VerifyAndDecrypt E "" time_Hour ks w = None) ->
  decryptInt64 E "" key d w = d.
Proof.
  intros Hrefuse. unfold decryptInt64.
  destruct (fernet.DecodeKey key) as [k |]; [| reflexivity].
  now rewrite Hrefuse.
Qed.

End CursorFallback.

(** An unreadable row ends the loop over the rows with [Internal]. *)
Lemma scan_rows_unreadable {A : Type} (decode : string -> A + error)
      (scan_msg decode_msg : string) (rows : Rows) :
  Exists (unreadable decode) rows ->
  forall items id,
  exists msg,
    scan_rows decode scan_msg decode_msg rows items id =
    inr (status_Error Internal msg).
Proof.
  induction rows as [|row rows IH]; intros Hbad items id.
  - inversion Hbad.
  - cbn [scan_rows]. destruct row as [[rid data] | e].
    + destruct (decode data) as [item | e] eqn:Hd.
      * apply IH. inversion Hbad as [? ? Hrow | ? ? Hrest]; subst.
        -- cbn [unreadable] in Hrow. rewrite Hd in Hrow. contradiction.
        -- exact Hrest.
      * now exists decode_msg.
    + now exists scan_msg.
Qed.

(** X10.  A page token that is stale (sealed more than an hour ago, or
    with another key than the store's) is not refused: [ListProjects],
    [ListOccurrences] and [ListNotes] answer it as they answer the empty
    token, with the first page. *)
Theorem stale_token_restarts_listing
        (E : Env) (Q : Queries) (pg : PgSQLStore E) (tok : string) (w : World E) :
  FernetContract E ->
  (forall ks, fernet_VerifyAndDecrypt E "" time_Hour ks w = None) ->
  stale_token E (paginationKey pg) tok w ->
  (forall filter pageSize,
      ListProjects E Q pg filter pageSize tok w =
      ListProjects E Q pg filter pageSize "" w) /\
  (forall pID filter pageSize,
      ListOccurrences E Q pg pID filter tok pageSize w =
      ListOccurrences E Q pg pID filter "" pageSize w) /\
  (forall pID filter pageSize,
      ListNotes E Q pg pID filter tok pageSize w =
      ListNotes E Q pg pID filter "" pageSize w).
Proof.
  intros contract Hrefuse Hstale.
  pose proof (decrypt_stale E contract (paginationKey pg) tok 0 w Hstale) as Htok.
  pose proof (decrypt_empty E (paginationKey pg) 0 w Hrefuse) as Hempty.
  repeat split; intros.
  - unfold ListProjects. now rewrite Htok, Hempty.
  - unfold ListOccurrences. now rewrite Htok, Hempty.
  - unfold ListNotes. now rewrite Htok, Hempty.
Qed.

Lemma stale_token_restarts_listing_witness :
  ListProjects mock.env mock.queries mock.store "" 10
               (mock.seal mock.test_key_bytes 0 "2")
               (mock.world (7200 * 10 ^ 9)
                  [mock.on_query (inl [inl (1, "projects/a")]);
                   mock.on_query_row (inl 1)] []) =
  ListProjects mock.env mock.queries mock.store "" 10 ""
               (mock.world (7200 * 10 ^ 9)
                  [mock.on_query (inl [inl (1, "projects/a")]);
                   mock.on_query_row (inl 1)] []).
Proof.
  apply (stale_token_restarts_listing
           mock.env mock.queries mock.store
           (mock.seal mock.test_key_bytes 0 "2")
           (mock.world (7200 * 10 ^ 9)
              [mock.on_query (inl [inl (1, "projects/a")]);
               mock.on_query_row (inl 1)] [])
           mock_keeps_contract).
  - intros ks. reflexivity.
  - exists "2", mock.test_key_bytes, (mock.world 0 [] []), (mock.world 0 [] []).
    split; [reflexivity |]. left. vm_compute. reflexivity.
Defined.

(** X11.  A row that cannot be read fails the whole listing.  When the
    scan of one of the rows that [Next] yields fails, or its text does
    not unmarshal, [ListProjects], [ListOccurrences] and [ListNotes]
    return [Internal] and none of the items read before that row, and
    ask the database nothing more.  The statement is about the rows that
    [Next] yields: the methods never read [rows.Err], so a result that
    [Next] cuts short looks to them like a shorter page. *)
Theorem unreadable_row_fails_the_listing
        (E : Env) (Q : Queries) (pg : PgSQLStore E) :
  (forall filter pageSize pageToken w filterQuery rows w1,
      filterQuery_of E filter = Returns filterQuery ->
      sql_QueryContext E (DB pg) (Sprintf_s (listProjects Q) filterQuery)
        [arg_int (decryptInt64 E pageToken (paginationKey pg) 0 w);
         arg_int pageSize] w = (inl rows, w1) ->
      Exists (unreadable (fun name => inl {| prj_Name := name |})) rows ->
      exists msg,
        ListProjects E Q pg filter pageSize pageToken w =
        Returns (inr (status_Error Internal msg), w1)) /\
  (forall pID filter pageToken pageSize w filterQuery rows w1,
      filterQuery_of E filter = Returns filterQuery ->
      sql_QueryContext E (DB pg) (Sprintf_s (listOccurrences Q) filterQuery)
        [arg_string pID;
         arg_int (decryptInt64 E pageToken (paginationKey pg) 0 w);
         arg_int pageSize] w = (inl rows, w1) ->
      Exists (unreadable (UnmarshalText_Occurrence E)) rows ->
      exists msg,
        ListOccurrences E Q pg pID filter pageToken pageSize w =
        Returns (inr (status_Error Internal msg), w1)) /\
  (forall pID filter pageToken pageSize w filterQuery rows w1,
      filterQuery_of E filter = Returns filterQuery ->
      sql_QueryContext E (DB pg) (Sprintf_s (listNotes Q) filterQuery)
        [arg_string pID;
         arg_int (decryptInt64 E pageToken (paginationKey pg) 0 w);
         arg_int pageSize] w = (inl rows, w1) ->
      Exists (unreadable (UnmarshalText_Note E)) rows ->
      exists msg,
        ListNotes E Q pg pID filter pageToken pageSize w =
        Returns (inr (status_Error Internal msg), w1)).
Proof.
  split; [| split].
  - intros filter pageSize pageToken w fq rows w1 Hfq Hq Hbad.
    destruct (scan_rows_unreadable _ "Failed to scan Project row" "" rows
                                   Hbad [] 0) as [msg Hscan].
    exists msg. unfold ListProjects. rewrite Hfq. cbv zeta.
    now rewrite Hq, Hscan.
  - intros pID filter pageToken pageSize w fq rows w1 Hfq Hq Hbad.
    destruct (scan_rows_unreadable _ "Failed to scan Occurrences row"
                "Failed to unmarshal Occurrence from database" rows
                Hbad [] 0) as [msg Hscan].
    exists msg. unfold ListOccurrences. rewrite Hfq. cbv zeta.
    now rewrite Hq, Hscan.
  - intros pID filter pageToken pageSize w fq rows w1 Hfq Hq Hbad.
    destruct (scan_rows_unreadable _ "Failed to scan Notes row"
                "Failed to unmarshal Note from database" rows
                Hbad [] 0) as [msg Hscan].
    exists msg. unfold ListNotes. rewrite Hfq. cbv zeta.
    now rewrite Hq, Hscan.
Qed.

Lemma unreadable_row_fails_the_listing_witness :
  exists msg,
    ListProjects mock.env mock.queries mock.store "" 10 ""
      (mock.world 0
         [mock.on_query (inl [inl (1, "projects/a");
                              inr (other_error "sql: Scan error")])] []) =
    Returns (inr (status_Error Internal msg), mock.world 0 [] []).
Proof.
  apply (proj1 (unreadable_row_fails_the_listing
                  mock.env mock.queries mock.store)
               "" 10 ""
               (mock.world 0
                  [mock.on_query (inl [inl (1, "projects/a");
                                       inr (other_error "sql: Scan error")])] [])
               ""
               [inl (1, "projects/a"); inr (other_error "sql: Scan error")]).
  - reflexivity.
  - reflexivity.
  - apply Exists_cons_tl, Exists_cons_hd. exact I.
Defined.

(** X12.  [ListNoteOccurrences] looks the note up first.  When the lookup
    fails, its error is the answer and no list statement is run.  When
    the note is there and the rows are read, the page follows the rule
    of the other list methods: the empty next-token on an empty page or
    when the last id is not below the greatest id, and otherwise a token
    that decodes to the last id. *)
Theorem ListNoteOccurrences_after_the_note
        (E : Env) (L : Lookup E) (Q' : MoreQueries) (pg : PgSQLStore E) :
  FernetContract E ->
  (forall pID nID filter pageToken pageSize w err w0,
      GetNote E L Q' pg pID nID w = (inr err, w0) ->
      ListNoteOccurrences E L Q' pg pID nID filter pageToken pageSize w =
      (inr err, w0)) /\
  (forall pID nID filter pageToken pageSize w n w0 rows w1 os lastID,
      GetNote E L Q' pg pID nID w = (inl n, w0) ->
      sql_QueryContext E (DB pg) (listNoteOccurrences Q')
        [arg_string pID; arg_string nID;
         arg_int (decryptInt64 E pageToken (paginationKey pg) 0 w0);
         arg_int pageSize] w0 = (inl rows, w1) ->
      scan_rows (UnmarshalText_Occurrence E)
                "Failed to scan Occurrences row"
                "Failed to unmarshal Occurrence from database" rows [] 0 =
      inl (os, lastID) ->
      is_int64 lastID ->
      page_of rows os lastID /\
      next_token_rule E pg os lastID (NoteOccurrencesMaxID Q')
        [arg_string pID; arg_string nID] w1
        (Returns (ListNoteOccurrences E L Q' pg pID nID filter pageToken
                                      pageSize w))).
Proof.
  intros contract. split.
  - intros pID nID filter pageToken pageSize w err w0 Hget.
    unfold ListNoteOccurrences. now rewrite Hget.
  - intros pID nID filter pageToken pageSize w n w0 rows w1 os lastID
           Hget Hq Hscan Hid.
    split.
    + destruct (scan_rows_all _ _ _ rows [] 0 os lastID Hscan)
        as (Hlen & _ & Hlast).
      split; [exact Hlen | exact Hlast].
    + unfold ListNoteOccurrences. rewrite Hget. cbv zeta. rewrite Hq, Hscan.
      now apply next_page_rule.
Qed.

Lemma mock_lookup_keeps_contract : FernetContract mock_lookup.env.
Proof.
  destruct mock_keeps_contract as [Hne Hin Hold Hother].
  split; [exact Hne | exact Hin | exact Hold | exact Hother].
Qed.

Lemma ListNoteOccurrences_after_the_note_witness :
  ListNoteOccurrences mock_lookup.env mock_lookup.lookup mock_lookup.queries
                      mock_lookup.store "pid" "nid" "" "" 10
                      (mock.world 0 [mock.on_query (inl [])] []) =
  (inr (status_Errorf NotFound "Note with name %q/%q does not Exist"
                      ["pid"; "nid"]),
   mock.world 0 [] []).
Proof.
  apply (proj1 (ListNoteOccurrences_after_the_note
                  mock_lookup.env mock_lookup.lookup mock_lookup.queries
                  mock_lookup.store mock_lookup_keeps_contract)).
  reflexivity.
Defined.

(* ================================================================== *)
(** * Reading and writing single records: further results *)
(* ================================================================== *)

Section RecordFacts.

Variable E : Env.
Variable L : Lookup E.
Variable Q : Queries.
Variable Q' : MoreQueries.
Variable pg : PgSQLStore E.

(** What a note that [GetNote] returns is made of. *)
Lemma GetNote_inversion (pID nID : string) (w : World E) (n : Note) (w1 : World E) :
  GetNote E L Q' pg pID nID w = (inl n, w1) ->
  exists data stored,
    sql_QueryRowContext_Scan_string L (DB pg) (searchNote Q')
      [arg_string pID; arg_string nID] w = (row_scanned data, w1) /\
    UnmarshalText_Note E data = inl stored /\
    n = {| n_Name := name_FormatNote E pID nID;
           n_CreateTime := n_CreateTime stored;
           n_UpdateTime := n_UpdateTime stored;
           n_rest := n_rest stored |}.
Proof.
  unfold GetNote. intros H.
  destruct (sql_QueryRowContext_Scan_string L (DB pg) (searchNote Q')
              [arg_string pID; arg_string nID] w) as [[data | | e] w0];
    try discriminate.
  destruct (UnmarshalText_Note E data) as [stored | e] eqn:Hd; [| discriminate].
  injection H as <- <-. now exists data, stored.
Qed.

(** What an occurrence that [GetOccurrence] returns is made of. *)
Lemma GetOccurrence_inversion (pID oID : string) (w : World E)
      (o : Occurrence) (w1 : World E) :
  GetOccurrence E L Q' pg pID oID w = (inl o, w1) ->
  exists data stored,
    sql_QueryRowContext_Scan_string L (DB pg) (searchOccurrence Q')
      [arg_string pID; arg_string oID] w = (row_scanned data, w1) /\
    UnmarshalText_Occurrence E data = inl stored /\
    o = {| o_Name := name_FormatOccurrence L pID oID;
           o_NoteName := o_NoteName stored;
           o_CreateTime := o_CreateTime stored;
           o_UpdateTime := o_UpdateTime stored;
           o_rest := o_rest stored |}.
Proof.
  unfold GetOccurrence. intros H.
  destruct (sql_QueryRowContext_Scan_string L (DB pg) (searchOccurrence Q')
              [arg_string pID; arg_string oID] w) as [[data | | e] w0];
    try discriminate.
  destruct (UnmarshalText_Occurrence E data) as [stored | e] eqn:Hd;
    [| discriminate].
  injection H as <- <-. now exists data, stored.
Qed.

(** What a note that [CreateNote] returns is made of, and what was sent
    to the database for it. *)
Lemma CreateNote_inversion (pID nID uID : string) (n : Note) (w : World E)
      (n' : Note) (w2 : World E) :
  CreateNote E Q pg pID nID uID n w = (inl n', w2) ->
  exists now w1 r,
    ptypes_TimestampNow E w = (now, w1) /\
    sql_ExecContext E (DB pg) (insertNote Q)
      [arg_string pID; arg_string nID;
       arg_string (MarshalTextString_Note E n')] w1 = (r, w2) /\
    n' = {| n_Name := name_FormatNote E pID nID;
            n_CreateTime := Some now;
            n_UpdateTime := n_UpdateTime n;
            n_rest := n_rest n |}.
Proof.
  unfold CreateNote. intros H.
  destruct (ptypes_TimestampNow E w) as [now w1].
  cbn [n_Name n_CreateTime n_UpdateTime n_rest] in H.
  destruct (sql_ExecContext E (DB pg) (insertNote Q) _ w1) as [r w3] eqn:Hexec.
  destruct (as_pq_Error r) as [code |].
  - destruct (String.eqb code "23505"); discriminate.
  - injection H as <- <-. now exists now, w1, r.
Qed.

(** What a note that [UpdateNote] returns is made of, and what was sent
    to the database for it. *)
Lemma UpdateNote_inversion (pID nID : string) (n : Note) (mask : list string)
      (w : World E) (u : Note) (w2 : World E) :
  UpdateNote E Q' pg pID nID n mask w = (inl u, w2) ->
  exists now w1 result count,
    ptypes_TimestampNow E w = (now, w1) /\
    sql_ExecContext E (DB pg) (updateNote Q')
      [arg_string (MarshalTextString_Note E u);
       arg_string pID; arg_string nID] w1 = (inl result, w2) /\
    RowsAffected result = inl count /\ count <> 0 /\
    u = {| n_Name := name_FormatNote E pID nID;
           n_CreateTime := n_CreateTime n;
           n_UpdateTime := Some now;
           n_rest := n_rest n |}.
Proof.
  unfold UpdateNote. intros H.
  destruct (ptypes_TimestampNow E w) as [now w1].
  cbn [n_Name n_CreateTime n_UpdateTime n_rest] in H.
  destruct (sql_ExecContext E (DB pg) (updateNote Q') _ w1)
    as [[result | e] w3] eqn:Hexec; [| discriminate].
  destruct (RowsAffected result) as [count | e] eqn:Hrows; [| discriminate].
  destruct (Z.eqb_spec count 0); [discriminate |].
  injection H as <- <-. now exists now, w1, result, count.
Qed.

(** What an occurrence that [CreateOccurrence] returns is made of, and
    what was sent to the database for it. *)
Lemma CreateOccurrence_inversion (pID uID : string) (o : Occurrence)
      (w : World E) (o' : Occurrence) (w3 : World E) :
  CreateOccurrence E Q pg pID uID o w = (inl o', w3) ->
  exists now w1 id w2 nPID nID r,
    ptypes_TimestampNow E w = (now, w1) /\
    uuid_NewRandom E w1 = (inl id, w2) /\
    name_ParseNote E (o_NoteName o) = inl (nPID, nID) /\
    sql_ExecContext E (DB pg) (insertOccurrence Q)
      [arg_string pID; arg_string id; arg_string nPID; arg_string nID;
       arg_string (MarshalTextString_Occurrence E o')] w2 = (r, w3) /\
    o' = {| o_Name := "projects/" ++ pID ++ "/occurrences/" ++ id;
            o_NoteName := o_NoteName o;
            o_CreateTime := Some now;
            o_UpdateTime := o_UpdateTime o;
            o_rest := o_rest o |}.
Proof.
  unfold CreateOccurrence. intros H.
  destruct (ptypes_TimestampNow E w) as [now w1].
  destruct (uuid_NewRandom E w1) as [[id | e] w2] eqn:Hid; [| discriminate].
  cbn [o_Name o_NoteName o_CreateTime o_UpdateTime o_rest] in H.
  destruct (name_ParseNote E (o_NoteName o)) as [[nPID nID] | e];
    [| discriminate].
  destruct (sql_ExecContext E (DB pg) (insertOccurrence Q) _ w2)
    as [r w4] eqn:Hexec.
  destruct (as_pq_Error r) as [code |].
  - destruct (String.eqb code "23505"); discriminate.
  - injection H as <- <-. now exists now, w1, id, w2, nPID, nID, r.
Qed.

End RecordFacts.

(** X13.  What the three lookups make of the answer of the database.
    [GetProject] answers [NotFound] when the statement reports that the
    project does not exist, and [Internal] for every error of the scan;
    [GetOccurrence] and [GetNote] answer [NotFound] when there is no row,
    and [Internal] for every other error of the scan and for a text that
    does not unmarshal. *)
Theorem lookups_of_missing_records
        (E : Env) (L : Lookup E) (Q' : MoreQueries) (pg : PgSQLStore E) :
  (forall pID w r w1,
      sql_QueryRowContext_Scan_bool L (DB pg) (projectExists Q')
        [arg_string (name_FormatProject E pID)] w = (r, w1) ->
      (r = row_scanned false ->
       GetProject E L Q' pg pID w =
       (inr (status_Errorf NotFound "Project with name %q does not Exist"
                           [name_FormatProject E pID]), w1)) /\
      (r = row_scanned true ->
       GetProject E L Q' pg pID w =
       (inl {| prj_Name := name_FormatProject E pID |}, w1)) /\
      ((forall exists_, r <> row_scanned exists_) ->
       GetProject E L Q' pg pID w =
       (inr (status_Error Internal "Failed to query Project from database"), w1))) /\
  (forall pID oID w r w1,
      sql_QueryRowContext_Scan_string L (DB pg) (searchOccurrence Q')
        [arg_string pID; arg_string oID] w = (r, w1) ->
      (r = row_ErrNoRows ->
       GetOccurrence E L Q' pg pID oID w =
       (inr (status_Errorf NotFound "Occurrence with name %q/%q does not Exist"
                           [pID; oID]), w1)) /\
      (forall e, r = row_error e ->
       GetOccurrence E L Q' pg pID oID w =
       (inr (status_Error Internal "Failed to query Occurrence from database"),
        w1)) /\
      (forall data e, r = row_scanned data ->
       UnmarshalText_Occurrence E data = inr e ->
       GetOccurrence E L Q' pg pID oID w =
       (inr (status_Error Internal
               "Failed to unmarshal Occurrence from database"), w1))) /\
  (forall pID nID w r w1,
      sql_QueryRowContext_Scan_string L (DB pg) (searchNote Q')
        [arg_string pID; arg_string nID] w = (r, w1) ->
      (r = row_ErrNoRows ->
       GetNote E L Q' pg pID nID w =
       (inr (status_Errorf NotFound "Note with name %q/%q does not Exist"
                           [pID; nID]), w1)) /\
      (forall e, r = row_error e ->
       GetNote E L Q' pg pID nID w =
       (inr (status_Error Internal "Failed to query Note from database"), w1)) /\
      (forall data e, r = row_scanned data ->
       UnmarshalText_Note E data = inr e ->
       GetNote E L Q' pg pID nID w =
       (inr (status_Error Internal "Failed to unmarshal Note from database"),
        w1))).
Proof.
  split; [| split].
  - intros pID w r w1 Hscan. unfold GetProject. rewrite Hscan.
    split; [| split].
    + intros ->. reflexivity.
    + intros ->. reflexivity.
    + intros Hnot. destruct r as [b | | e];
        [now contradiction (Hnot b) | reflexivity | reflexivity].
  - intros pID oID w r w1 Hscan. unfold GetOccurrence. rewrite Hscan.
    split; [| split].
    + intros ->. reflexivity.
    + intros e ->. reflexivity.
    + intros data e -> Hd. now rewrite Hd.
  - intros pID nID w r w1 Hscan. unfold GetNote. rewrite Hscan.
    split; [| split].
    + intros ->. reflexivity.
    + intros e ->. reflexivity.
    + intros data e -> Hd. now rewrite Hd.
Qed.

Lemma lookups_of_missing_records_witness :
  GetProject mock_lookup.env mock_lookup.lookup mock_lookup.queries
             mock_lookup.store "pid"
             (mock.world 0 [mock.on_query_row (inl 0)] []) =
  (inr (status_Errorf NotFound "Project with name %q does not Exist"
                      ["projects/pid"]),
   mock.world 0 [] []).
Proof.
  apply (proj1 (proj1 (lookups_of_missing_records
                         mock_lookup.env mock_lookup.lookup mock_lookup.queries
                         mock_lookup.store)
                      "pid" (mock.world 0 [mock.on_query_row (inl 0)] [])
                      (row_scanned false) (mock.world 0 [] []) eq_refl)).
  reflexivity.
Defined.

(** X14.  A record that a lookup returns is made of the row that the
    database handed out for the ids of the request: every field is that
    of the unmarshalled text of that row, except the name, which is
    formatted from the ids of the request whatever name the text
    holds. *)
Theorem lookups_name_records_after_the_request
        (E : Env) (L : Lookup E) (Q' : MoreQueries) (pg : PgSQLStore E) :
  (forall pID w p w1,
      GetProject E L Q' pg pID w = (inl p, w1) ->
      sql_QueryRowContext_Scan_bool L (DB pg) (projectExists Q')
        [arg_string (name_FormatProject E pID)] w = (row_scanned true, w1) /\
      p = {| prj_Name := name_FormatProject E pID |}) /\
  (forall pID oID w o w1,
      GetOccurrence E L Q' pg pID oID w = (inl o, w1) ->
      exists data stored,
        sql_QueryRowContext_Scan_string L (DB pg) (searchOccurrence Q')
          [arg_string pID; arg_string oID] w = (row_scanned data, w1) /\
        UnmarshalText_Occurrence E data = inl stored /\
        o = {| o_Name := name_FormatOccurrence L pID oID;
               o_NoteName := o_NoteName stored;
               o_CreateTime := o_CreateTime stored;
               o_UpdateTime := o_UpdateTime stored;
               o_rest := o_rest stored |}) /\
  (forall pID nID w n w1,
      GetNote E L Q' pg pID nID w = (inl n, w1) ->
      exists data stored,
        sql_QueryRowContext_Scan_string L (DB pg) (searchNote Q')
          [arg_string pID; arg_string nID] w = (row_scanned data, w1) /\
        UnmarshalText_Note E data = inl stored /\
        n = {| n_Name := name_FormatNote E pID nID;
               n_CreateTime := n_CreateTime stored;
               n_UpdateTime := n_UpdateTime stored;
               n_rest := n_rest stored |}).
Proof.
  split; [| split].
  - intros pID w p w1. unfold GetProject.
    destruct (sql_QueryRowContext_Scan_bool L (DB pg) (projectExists Q') _ w)
      as [[[|] | | e] w0]; cbn [negb]; intros H; try discriminate.
    injection H as <- <-. split; reflexivity.
  - intros pID oID w o w1 H.
    exact (GetOccurrence_inversion E L Q' pg pID oID w o w1 H).
  - intros pID nID w n w1 H.
    exact (GetNote_inversion E L Q' pg pID nID w n w1 H).
Qed.

Lemma lookups_name_records_after_the_request_witness :
  exists data stored,
    sql_QueryRowContext_Scan_string mock_lookup.lookup (DB mock_lookup.store)
      (searchNote mock_lookup.queries) [arg_string "pid"; arg_string "nid"]
      (mock.world 0
         [mock.on_query
            (inl [inl (3, mock_lookup.Marshal_Note
                            {| n_Name := "projects/x/notes/y";
                               n_CreateTime := Some 5;
                               n_UpdateTime := None;
                               n_rest := "kind: BUILD" |})])] []) =
    (row_scanned data, mock.world 0 [] []) /\
    UnmarshalText_Note mock_lookup.env data = inl stored /\
    {| n_Name := "projects/pid/notes/nid"; n_CreateTime := Some 5;
       n_UpdateTime := None; n_rest := "kind: BUILD" |} =
    {| n_Name := name_FormatNote mock_lookup.env "pid" "nid";
       n_CreateTime := n_CreateTime stored;
       n_UpdateTime := n_UpdateTime stored;
       n_rest := n_rest stored |}.
Proof.
  apply (proj2 (proj2 (lookups_name_records_after_the_request
                         mock_lookup.env mock_lookup.lookup
                         mock_lookup.queries mock_lookup.store))
               "pid" "nid"
               (mock.world 0
                  [mock.on_query
                     (inl [inl (3, mock_lookup.Marshal_Note
                                     {| n_Name := "projects/x/notes/y";
                                        n_CreateTime := Some 5;
                                        n_UpdateTime := None;
                                        n_rest := "kind: BUILD" |})])] [])
               {| n_Name := "projects/pid/notes/nid"; n_CreateTime := Some 5;
                  n_UpdateTime := None; n_rest := "kind: BUILD" |}
               (mock.world 0 [] [])).
  reflexivity.
Defined.

(** X15.  A note that [CreateNote] returned is read back as it was
    returned.  The text that went to the database with the insert is the
    marshalled form of the returned note; when the database hands that
    text out for the same project and note id, and the text unmarshals to
    the note, [GetNote] returns the very note that [CreateNote]
    returned, creation time included. *)
Theorem created_note_is_read_back
        (E : Env) (L : Lookup E) (Q : Queries) (Q' : MoreQueries)
        (pg : PgSQLStore E) (pID nID uID : string) (n : Note)
        (w : World E) (n' : Note) (w1 w2 w3 : World E) :
  CreateNote E Q pg pID nID uID n w = (inl n', w1) ->
  UnmarshalText_Note E (MarshalTextString_Note E n') = inl n' ->
  sql_QueryRowContext_Scan_string L (DB pg) (searchNote Q')
    [arg_string pID; arg_string nID] w2 =
  (row_scanned (MarshalTextString_Note E n'), w3) ->
  (exists w0 r,
      sql_ExecContext E (DB pg) (insertNote Q)
        [arg_string pID; arg_string nID;
         arg_string (MarshalTextString_Note E n')] w0 = (r, w1)) /\
  GetNote E L Q' pg pID nID w2 = (inl n', w3).
Proof.
  intros Hcreate Hround Hscan.
  destruct (CreateNote_inversion E Q pg pID nID uID n w n' w1 Hcreate)
    as (now & w0 & r & _ & Hexec & Hn').
  split; [now exists w0, r |].
  unfold GetNote. rewrite Hscan, Hround. now rewrite Hn'.
Qed.

Lemma created_note_is_read_back_witness :
  GetNote mock_lookup.env mock_lookup.lookup mock_lookup.queries
          mock_lookup.store "pid" "nid"
          (mock.world 9
             [mock.on_query
                (inl [inl (1, mock_lookup.Marshal_Note
                                {| n_Name := "projects/pid/notes/nid";
                                   n_CreateTime := Some 5;
                                   n_UpdateTime := None;
                                   n_rest := "kind: BUILD" |})])] []) =
  (inl {| n_Name := "projects/pid/notes/nid"; n_CreateTime := Some 5;
          n_UpdateTime := None; n_rest := "kind: BUILD" |},
   mock.world 9 [] []).
Proof.
  apply (created_note_is_read_back
           mock_lookup.env mock_lookup.lookup mock.queries mock_lookup.queries
           mock_lookup.store "pid" "nid" "uid"
           {| n_Name := ""; n_CreateTime := None; n_UpdateTime := None;
              n_rest := "kind: BUILD" |}
           (mock.world 5 [mock.on_exec (inl {| RowsAffected := inl 1 |})] [])
           {| n_Name := "projects/pid/notes/nid"; n_CreateTime := Some 5;
              n_UpdateTime := None; n_rest := "kind: BUILD" |}
           (mock.world 5 [] [])).
  - reflexivity.
  - reflexivity.
  - reflexivity.
Defined.

(** X16.  [UpdateNote] replaces the whole note and reads no field mask.
    The note it returns has the name of the request, the time of the
    update, and every other field as the request gives it, the creation
    time included; its marshalled form is the text that went to the
    database, and when the database hands that text out, [GetNote]
    returns the very note that [UpdateNote] returned. *)
Theorem updated_note_is_read_back
        (E : Env) (L : Lookup E) (Q' : MoreQueries)
        (pg : PgSQLStore E) (pID nID : string) (n : Note) (mask : list string)
        (w : World E) (u : Note) (w1 w2 w3 : World E) :
  UpdateNote E Q' pg pID nID n mask w = (inl u, w1) ->
  UnmarshalText_Note E (MarshalTextString_Note E u) = inl u ->
  sql_QueryRowContext_Scan_string L (DB pg) (searchNote Q')
    [arg_string pID; arg_string nID] w2 =
  (row_scanned (MarshalTextString_Note E u), w3) ->
  (exists now w0,
      ptypes_TimestampNow E w = (now, w0) /\
      u = {| n_Name := name_FormatNote E pID nID;
             n_CreateTime := n_CreateTime n;
             n_UpdateTime := Some now;
             n_rest := n_rest n |} /\
      exists result,
        sql_ExecContext E (DB pg) (updateNote Q')
          [arg_string (MarshalTextString_Note E u);
           arg_string pID; arg_string nID] w0 = (inl result, w1)) /\
  GetNote E L Q' pg pID nID w2 = (inl u, w3).
Proof.
  intros Hupdate Hround Hscan.
  destruct (UpdateNote_inversion E Q' pg pID nID n mask w u w1 Hupdate)
    as (now & w0 & result & count & Hnow & Hexec & _ & _ & Hu).
  split.
  - exists now, w0. split; [exact Hnow |]. split; [exact Hu |]. now exists result.
  - unfold GetNote. rewrite Hscan, Hround. now rewrite Hu.
Qed.

Lemma updated_note_is_read_back_witness :
  GetNote mock_lookup.env mock_lookup.lookup mock_lookup.queries
          mock_lookup.store "pid" "nid"
          (mock.world 9
             [mock.on_query
                (inl [inl (1, mock_lookup.Marshal_Note
                                {| n_Name := "projects/pid/notes/nid";
                                   n_CreateTime := None;
                                   n_UpdateTime := Some 7;
                                   n_rest := "kind: BUILD" |})])] []) =
  (inl {| n_Name := "projects/pid/notes/nid"; n_CreateTime := None;
          n_UpdateTime := Some 7; n_rest := "kind: BUILD" |},
   mock.world 9 [] []).
Proof.
  apply (updated_note_is_read_back
           mock_lookup.env mock_lookup.lookup mock_lookup.queries
           mock_lookup.store "pid" "nid"
           {| n_Name := "anything"; n_CreateTime := None; n_UpdateTime := None;
              n_rest := "kind: BUILD" |}
           ["name"]
           (mock.world 7 [mock.on_exec (inl {| RowsAffected := inl 1 |})] [])
           {| n_Name := "projects/pid/notes/nid"; n_CreateTime := None;
              n_UpdateTime := Some 7; n_rest := "kind: BUILD" |}
           (mock.world 7 [] [])).
  - reflexivity.
  - reflexivity.
  - reflexivity.
Defined.

(** X17.  An update that affects no row is [NotFound], for notes and for
    occurrences; an update whose statement fails, or whose count of rows
    cannot be read, is [Internal]. *)
Theorem update_of_missing_record_is_not_found
        (E : Env) (Q' : MoreQueries) (pg : PgSQLStore E) :
  (forall pID nID n mask w now w1 r w2,
      ptypes_TimestampNow E w = (now, w1) ->
      sql_ExecContext E (DB pg) (updateNote Q')
        [arg_string (MarshalTextString_Note E
           {| n_Name := name_FormatNote E pID nID;
              n_CreateTime := n_CreateTime n;
              n_UpdateTime := Some now; n_rest := n_rest n |});
         arg_string pID; arg_string nID] w1 = (r, w2) ->
      (forall result, r = inl result -> RowsAffected result = inl 0 ->
       UpdateNote E Q' pg pID nID n mask w =
       (inr (status_Errorf NotFound "Note with name %q/%q does not Exist"
                           [pID; nID]), w2)) /\
      (forall result e, r = inl result -> RowsAffected result = inr e ->
       UpdateNote E Q' pg pID nID n mask w =
       (inr (status_Error Internal "Failed to update Note"), w2)) /\
      (forall e, r = inr e ->
       UpdateNote E Q' pg pID nID n mask w =
       (inr (status_Error Internal "Failed to update Note"), w2))) /\
  (forall pID oID o mask w now w1 r w2,
      ptypes_TimestampNow E w = (now, w1) ->
      sql_ExecContext E (DB pg) (updateOccurrence Q')
        [arg_string (MarshalTextString_Occurrence E
           {| o_Name := o_Name o; o_NoteName := o_NoteName o;
              o_CreateTime := o_CreateTime o;
              o_UpdateTime := Some now; o_rest := o_rest o |});
         arg_string pID; arg_string oID] w1 = (r, w2) ->
      (forall result, r = inl result -> RowsAffected result = inl 0 ->
       UpdateOccurrence E Q' pg pID oID o mask w =
       (inr (status_Errorf NotFound "Occurrence with name %q/%q does not Exist"
                           [pID; oID]), w2)) /\
      (forall result e, r = inl result -> RowsAffected result = inr e ->
       UpdateOccurrence E Q' pg pID oID o mask w =
       (inr (status_Error Internal "Failed to update Occurrence"), w2)) /\
      (forall e, r = inr e ->
       UpdateOccurrence E Q' pg pID oID o mask w =
       (inr (status_Error Internal "Failed to update Occurrence"), w2))).
Proof.
  split.
  - intros pID nID n mask w now w1 r w2 Hnow Hexec.
    unfold UpdateNote. rewrite Hnow.
    cbn [n_Name n_CreateTime n_UpdateTime n_rest]. rewrite Hexec.
    split; [| split].
    + intros result -> Hrows. now rewrite Hrows.
    + intros result e -> Hrows. now rewrite Hrows.
    + intros e ->. reflexivity.
  - intros pID oID o mask w now w1 r w2 Hnow Hexec.
    unfold UpdateOccurrence. rewrite Hnow. rewrite Hexec.
    split; [| split].
    + intros result -> Hrows. now rewrite Hrows.
    + intros result e -> Hrows. now rewrite Hrows.
    + intros e ->. reflexivity.
Qed.

Lemma update_of_missing_record_is_not_found_witness :
  UpdateOccurrence mock_lookup.env mock_lookup.queries mock_lookup.store
    "pid" "oid"
    {| o_Name := ""; o_NoteName := "projects/p/notes/n"; o_CreateTime := None;
       o_UpdateTime := None; o_rest := "" |}
    []
    (mock.world 7 [mock.on_exec (inl {| RowsAffected := inl 0 |})] []) =
  (inr (status_Errorf NotFound "Occurrence with name %q/%q does not Exist"
                      ["pid"; "oid"]),
   mock.world 7 [] []).
Proof.
  destruct (update_of_missing_record_is_not_found
              mock_lookup.env mock_lookup.queries mock_lookup.store)
    as [_ Hocc].
  destruct (Hocc "pid" "oid"
              {| o_Name := ""; o_NoteName := "projects/p/notes/n";
                 o_CreateTime := None; o_UpdateTime := None; o_rest := "" |}
              [] (mock.world 7 [mock.on_exec (inl {| RowsAffected := inl 0 |})] [])
              7 (mock.world 7 [mock.on_exec (inl {| RowsAffected := inl 0 |})] [])
              (inl {| RowsAffected := inl 0 |}) (mock.world 7 [] [])
              eq_refl eq_refl) as [Hzero _].
  exact (Hzero {| RowsAffected := inl 0 |} eq_refl eq_refl).
Defined.

(** X18.  [GetOccurrenceNote] is [GetOccurrence] and then [GetNote] on
    the project and the id that the occurrence's note name spells, which
    need not be the project of the occurrence.  An error of the first
    lookup is the answer, without a second lookup; a note name that does
    not parse gives [InvalidArgument], without a second lookup. *)
Theorem GetOccurrenceNote_follows_the_note_name
        (E : Env) (L : Lookup E) (Q' : MoreQueries) (pg : PgSQLStore E)
        (pID oID : string) (w : World E) :
  (forall err w1,
      GetOccurrence E L Q' pg pID oID w = (inr err, w1) ->
      GetOccurrenceNote E L Q' pg pID oID w = (inr err, w1)) /\
  (forall o w1 e,
      GetOccurrence E L Q' pg pID oID w = (inl o, w1) ->
      name_ParseNote E (o_NoteName o) = inr e ->
      GetOccurrenceNote E L Q' pg pID oID w =
      (inr (status_Error InvalidArgument "Invalid Note name"), w1)) /\
  (forall o w1 nPID nID,
      GetOccurrence E L Q' pg pID oID w = (inl o, w1) ->
      name_ParseNote E (o_NoteName o) = inl (nPID, nID) ->
      GetOccurrenceNote E L Q' pg pID oID w = GetNote E L Q' pg nPID nID w1).
Proof.
  split; [| split].
  - intros err w1 Hget. unfold GetOccurrenceNote. now rewrite Hget.
  - intros o w1 e Hget Hparse. unfold GetOccurrenceNote.
    now rewrite Hget, Hparse.
  - intros o w1 nPID nID Hget Hparse. unfold GetOccurrenceNote.
    rewrite Hget, Hparse.
    destruct (GetNote E L Q' pg nPID nID w1) as [[n | err] w2] eqn:Hnote;
      [| reflexivity].
    destruct (GetNote_inversion E L Q' pg nPID nID w1 n w2 Hnote)
      as (data & stored & _ & _ & ->).
    reflexivity.
Qed.

Lemma GetOccurrenceNote_follows_the_note_name_witness :
  GetOccurrenceNote mock_lookup.env mock_lookup.lookup mock_lookup.queries
    mock_lookup.store "pid" "oid"
    (mock.world 0
       [mock.on_query (inl [inl (4, "projects/vendor/notes/CVE-1")]);
        mock.on_query (inl [])] []) =
  GetNote mock_lookup.env mock_lookup.lookup mock_lookup.queries
    mock_lookup.store "vendor" "CVE-1"
    (mock.world 0 [mock.on_query (inl [])] []).
Proof.
  apply (proj2 (proj2 (GetOccurrenceNote_follows_the_note_name
                         mock_lookup.env mock_lookup.lookup mock_lookup.queries
                         mock_lookup.store "pid" "oid"
                         (mock.world 0
                            [mock.on_query
                               (inl [inl (4, "projects/vendor/notes/CVE-1")]);
                             mock.on_query (inl [])] [])))
               {| o_Name := "projects/pid/occurrences/oid";
                  o_NoteName := "projects/vendor/notes/CVE-1";
                  o_CreateTime := None; o_UpdateTime := None; o_rest := "" |}).
  - reflexivity.
  - reflexivity.
Defined.

(* ================================================================== *)
(** * Creating records and opening the store: further results *)
(* ================================================================== *)

Lemma successes_length {B : Type} (outs : list (B + error)) :
  (List.length (successes outs) <= List.length outs)%nat.
Proof.
  induction outs as [|[y | e] outs IH]; simpl; lia.
Qed.

(** X19.  The batch methods never report an error.  Whatever the
    creation of each item answers, [BatchCreateOccurrences] and
    [BatchCreateNotes] return an empty list of errors and the items that
    were created, in the order of the batch; an item that fails, for
    whatever reason, is left out and nothing tells which or why. *)
Theorem batch_create_reports_no_error
        (E : Env) (Q : Queries) (pg : PgSQLStore E) (pID uID : string) :
  (forall occs w,
      exists created w',
        BatchCreateOccurrences E Q pg pID uID occs w = (created, [], w') /\
        created = successes (outcomes_of (CreateOccurrence E Q pg pID uID) occs w) /\
        (List.length created <= List.length occs)%nat) /\
  (forall notes w,
      exists created w',
        BatchCreateNotes E Q pg pID uID notes w = (created, [], w') /\
        created =
        successes
          (outcomes_of (fun '(nID, n) => CreateNote E Q pg pID nID uID n) notes w) /\
        (List.length created <= List.length notes)%nat).
Proof.
  split.
  - intros occs w.
    destruct (batch_loop_successes E (CreateOccurrence E Q pg pID uID)
                                   occs [] [] w) as [w' Hrun].
    exists (successes (outcomes_of (CreateOccurrence E Q pg pID uID) occs w)), w'.
    split; [exact Hrun |]. split; [reflexivity |].
    rewrite <- (outcomes_of_length E (CreateOccurrence E Q pg pID uID) occs w).
    apply successes_length.
  - intros notes w.
    destruct (batch_loop_successes E
                (fun '(nID, n) => CreateNote E Q pg pID nID uID n)
                notes [] [] w) as [w' Hrun].
    exists (successes
              (outcomes_of (fun '(nID, n) => CreateNote E Q pg pID nID uID n)
                           notes w)), w'.
    split; [exact Hrun |]. split; [reflexivity |].
    rewrite <- (outcomes_of_length E
                  (fun '(nID, n) => CreateNote E Q pg pID nID uID n) notes w).
    apply successes_length.
Qed.

(** X20.  [CreateOccurrence] draws the identifier and checks the note
    name before it writes.  When no identifier can be drawn it answers
    [Internal], and when the note name of the occurrence does not parse
    it answers [InvalidArgument]; in both cases no insert is sent.  An
    occurrence that it returns is named after the project and the drawn
    identifier, whatever name the request carried, and is stamped with
    the time of the call. *)
Theorem CreateOccurrence_checks_before_the_insert
        (E : Env) (Q : Queries) (pg : PgSQLStore E)
        (pID uID : string) (o : Occurrence) (w : World E)
        (now : Timestamp) (w1 : World E) :
  ptypes_TimestampNow E w = (now, w1) ->
  (forall e w2,
      uuid_NewRandom E w1 = (inr e, w2) ->
      CreateOccurrence E Q pg pID uID o w =
      (inr (status_Error Internal "Failed to generate UUID"), w2)) /\
  (forall id w2 e,
      uuid_NewRandom E w1 = (inl id, w2) ->
      name_ParseNote E (o_NoteName o) = inr e ->
      CreateOccurrence E Q pg pID uID o w =
      (inr (status_Error InvalidArgument "Invalid note name"), w2)) /\
  (forall o' w3,
      CreateOccurrence E Q pg pID uID o w = (inl o', w3) ->
      exists id w2 nPID nID,
        uuid_NewRandom E w1 = (inl id, w2) /\
        name_ParseNote E (o_NoteName o) = inl (nPID, nID) /\
        o' = {| o_Name := "projects/" ++ pID ++ "/occurrences/" ++ id;
                o_NoteName := o_NoteName o;
                o_CreateTime := Some now;
                o_UpdateTime := o_UpdateTime o;
                o_rest := o_rest o |}).
Proof.
  intros Hnow. split; [| split].
  - intros e w2 Hid. unfold CreateOccurrence. now rewrite Hnow, Hid.
  - intros id w2 e Hid Hparse. unfold CreateOccurrence. rewrite Hnow, Hid.
    cbn [o_Name o_NoteName o_CreateTime o_UpdateTime o_rest].
    now rewrite Hparse.
  - intros o' w3 Hcreate.
    destruct (CreateOccurrence_inversion E Q pg pID uID o w o' w3 Hcreate)
      as (now' & w1' & id & w2 & nPID & nID & r & Hnow' & Hid & Hparse & _ & Ho').
    rewrite Hnow in Hnow'. injection Hnow' as <- <-.
    now exists id, w2, nPID, nID.
Qed.

Lemma CreateOccurrence_checks_before_the_insert_witness :
  CreateOccurrence mock.env mock.queries mock.store "pid" "uid"
    {| o_Name := ""; o_NoteName := "notes/n1"; o_CreateTime := None;
       o_UpdateTime := None; o_rest := "" |}
    (mock.world 3 [mock.on_exec (inl {| RowsAffected := inl 1 |})] ["id-1"]) =
  (inr (status_Error InvalidArgument "Invalid note name"),
   mock.world 3 [mock.on_exec (inl {| RowsAffected := inl 1 |})] []).
Proof.
  destruct (CreateOccurrence_checks_before_the_insert
              mock.env mock.queries mock.store "pid" "uid"
              {| o_Name := ""; o_NoteName := "notes/n1"; o_CreateTime := None;
                 o_UpdateTime := None; o_rest := "" |}
              (mock.world 3 [mock.on_exec (inl {| RowsAffected := inl 1 |})]
                          ["id-1"])
              3
              (mock.world 3 [mock.on_exec (inl {| RowsAffected := inl 1 |})]
                          ["id-1"])
              eq_refl) as (_ & Hname & _).
  apply (Hname "id-1" _ (other_error "invalid note name")).
  - reflexivity.
  - reflexivity.
Defined.

(** X21.  The connection string is made of the host, the database, the
    user, the password, the SSL mode and, when there is one, the root
    certificate.  The [Port] of the configuration is never read: two
    configurations that differ in their port only give the same
    connection string, and [NewPgSQLStore] does the same with both. *)
Theorem assembleDSN_never_reads_the_port
        (c1 c2 : Config) :
  Host c1 = Host c2 -> DBName c1 = DBName c2 -> User c1 = User c2 ->
  Password c1 = Password c2 -> SSLMode c1 = SSLMode c2 ->
  SSLRootCert c1 = SSLRootCert c2 ->
  assembleDSN c1 = assembleDSN c2 /\
  (SSLRootCert c1 = "" ->
   assembleDSN c1 =
   "host=" ++ Host c1 ++ " dbname=" ++ DBName c1 ++ " user=" ++ User c1 ++
   " password=" ++ Password c1 ++ " sslmode=" ++ SSLMode c1) /\
  (forall (E : Env) (L : Lookup E) (Q : Queries) (w : World E),
      PaginationKey c1 = PaginationKey c2 ->
      NewPgSQLStore E L Q c1 w = NewPgSQLStore E L Q c2 w).
Proof.
  intros Hh Hd Hu Hp Hm Hc.
  assert (Hdsn : assembleDSN c1 = assembleDSN c2).
  { unfold assembleDSN. now rewrite Hh, Hd, Hu, Hp, Hm, Hc. }
  split; [exact Hdsn |]. split.
  - intros Hnone. unfold assembleDSN. now rewrite Hnone.
  - intros E L Q w Hk. unfold NewPgSQLStore, newDSNConnector.
    now rewrite Hdsn, Hk.
Qed.

Lemma assembleDSN_never_reads_the_port_witness :
  assembleDSN mock_lookup.config =
  assembleDSN {| Host := "127.0.0.1:5432"; Port := 6543; DBName := "test_db";
                 User := "postgres"; Password := "password";
                 SSLMode := "disable"; SSLRootCert := "";
                 PaginationKey := mock.test_key |}.
Proof.
  apply (assembleDSN_never_reads_the_port
           mock_lookup.config
           {| Host := "127.0.0.1:5432"; Port := 6543; DBName := "test_db";
              User := "postgres"; Password := "password";
              SSLMode := "disable"; SSLRootCert := "";
              PaginationKey := mock.test_key |});
    reflexivity.
Defined.
